(** * Hmd: the staleness-aware retrieval pipeline and the ranked search

    A shallow embedding of [main.py]: the freshness decision
    ([should_fetch_from_api]), the refresh adapter ([fetch_api_data]), the
    retrieval orchestrator ([get_advanced_topic_content]) and the ranked
    search ([advanced_search], [calculate_relevance_score]).

    The coroutines of [main.py] run one request from its first line to its
    [return]; every [await] is a call into the relational store, the Redis
    cache or an HTTP client.  They are written here in a state-and-exception
    monad over a [World] that holds the [topics] table, the Redis keyspace,
    the clock, the remote servers and a script of infrastructure faults.

    [main.py] uses the module [datetime] and the global [async_engine]
    without binding them, and calls two coroutines it does not define.  The
    import and the initial [async_engine = None] are taken as given; the two
    coroutines are parameters of the orchestrator, with one instance
    modelled from the spec. *)

From Stdlib Require Import ZArith QArith List String Ascii Lia Bool Sorted Permutation.
From stdpp Require Import base option gmap strings pretty.

#[local] Set Warnings "-register-all".

Local Open Scope string_scope.
Local Open Scope Z_scope.

(** ** Time *)

(** [datetime.datetime.utcnow()] has microsecond resolution: an instant is
    the number of microseconds since the epoch, a [timedelta] a difference
    of two instants. *)
Definition us_per_second : Z := 1000000.
Definition us_per_day : Z := 86400 * us_per_second.

(** [timedelta.days]: a timedelta is normalised to [days], [0 <= seconds <
    86400], [0 <= microseconds < 10^6], so [days] is the floor of the
    quotient, also for a negative difference. *)
Definition timedelta_days (delta : Z) : Z := delta / us_per_day.

(** ** Exceptions *)

(** The classes of [Exception] that the code names or that its library
    calls raise.  [JSONDecodeError] is a subclass of [ValueError]; every
    class here is a subclass of [Exception]. *)
Inductive exn_class :=
  | ClientError | ValueError | JSONDecodeError
  | TypeError | KeyError
  | SQLAlchemyError | RedisError | OtherError.

#[global] Instance exn_class_eq_dec : EqDecision exn_class.
Proof. solve_decision. Defined.

Record exn := Exn { exn_cls : exn_class; exn_str : string }.

#[global] Instance exn_eq_dec : EqDecision exn.
Proof. solve_decision. Defined.

Definition subclass (c d : exn_class) : bool :=
  match c, d with
  | JSONDecodeError, ValueError => true
  | _, _ => bool_decide (c = d)
  end.

(** [except (C1, C2, ...) as e]: does the handler take exception [e]? *)
Definition caught_by (classes : list exn_class) (e : exn) : bool :=
  existsb (subclass (exn_cls e)) classes.
Arguments caught_by : simpl never.

(** ** JSON *)

Inductive json :=
  | JNull
  | JBool (b : bool)
  | JNum (n : Z)
  | JStr (s : string)
  | JArr (items : list json)
  | JObj (fields : list (string * json)).

(** Bytes that travel over HTTP or sit in Redis: either the serialisation
    of a JSON value ([json.dumps]) or bytes that [json.loads] rejects. *)
Inductive blob :=
  | Serialized (j : json)
  | Garbage (raw : string).

Definition json_dumps (j : json) : blob := Serialized j.

(** Truthiness of a byte string: only the empty one is falsy, and a JSON
    text is never empty. *)
Definition blob_truthy (b : blob) : bool :=
  match b with
  | Serialized _ => true
  | Garbage raw => negb (String.eqb raw "")
  end.

(** [d[key]] on a dict obtained from JSON: of two members with one name the
    later one wins. *)
Fixpoint dict_get (key : string) (fields : list (string * json)) : option json :=
  match fields with
  | [] => None
  | (k, v) :: rest =>
      match dict_get key rest with
      | Some v' => Some v'
      | None => if String.eqb k key then Some v else None
      end
  end.

(** ** The world of one process *)

(** A row of the [topics] table ([class Topic]); the queries of this file
    never select [id].  The fields are the typed, non-null columns of the
    data model. *)
Record Topic := mkTopic {
  sector : string;
  content : string;
  further_reading : string;
  last_update : Z
}.

(** A Redis key set with [setex]: the bytes and the instant it expires. *)
Record CacheEntry := mkEntry {
  payload : blob;
  expires_at : Z
}.

(** What a remote server does with one GET. *)
Inductive HttpOutcome :=
  | NetFail (e : exn)
  | Response (status : Z) (body : blob).

(** Calls that left the process towards a remote client. *)
Inductive Call :=
  | RefreshCall (s : string)
  | EnrichCall (s : string).

Record World := mkWorld {
  topics : list Topic;                 (* rows in scan order *)
  redis : gmap string CacheEntry;      (* redis_client *)
  clock : Z;                           (* utcnow *)
  async_engine : bool;                 (* false: the global is None *)
  api_server : string -> HttpOutcome;  (* behind API_URL *)
  academic_server : string -> HttpOutcome; (* behind ACADEMIC_RESOURCES_API *)
  faults : list (option exn);          (* one entry per store or cache call *)
  calls : list Call;
  log : list string                    (* logger.error lines *)
}.

Definition set_topics (f : list Topic -> list Topic) (w : World) : World :=
  mkWorld (f (topics w)) (redis w) (clock w) (async_engine w) (api_server w)
          (academic_server w) (faults w) (calls w) (log w).
Definition set_redis (f : gmap string CacheEntry -> gmap string CacheEntry)
    (w : World) : World :=
  mkWorld (topics w) (f (redis w)) (clock w) (async_engine w) (api_server w)
          (academic_server w) (faults w) (calls w) (log w).
Definition set_engine (b : bool) (w : World) : World :=
  mkWorld (topics w) (redis w) (clock w) b (api_server w)
          (academic_server w) (faults w) (calls w) (log w).
Definition set_faults (fs : list (option exn)) (w : World) : World :=
  mkWorld (topics w) (redis w) (clock w) (async_engine w) (api_server w)
          (academic_server w) fs (calls w) (log w).
Definition add_call (c : Call) (w : World) : World :=
  mkWorld (topics w) (redis w) (clock w) (async_engine w) (api_server w)
          (academic_server w) (faults w) (calls w ++ [c]) (log w).
Definition add_log (line : string) (w : World) : World :=
  mkWorld (topics w) (redis w) (clock w) (async_engine w) (api_server w)
          (academic_server w) (faults w) (calls w) (log w ++ [line]).
(** Time passing between two requests. *)
Definition advance (d : Z) (w : World) : World :=
  mkWorld (topics w) (redis w) (clock w + d) (async_engine w) (api_server w)
          (academic_server w) (faults w) (calls w) (log w).

(** ** The monad *)

Inductive Res (A : Type) :=
  | Ok (a : A)
  | Raise (e : exn).
Arguments Ok {A} a.
Arguments Raise {A} e.

Definition M (A : Type) : Type := World -> Res A * World.

Definition ret {A} (a : A) : M A := fun w => (Ok a, w).
Definition raise {A} (e : exn) : M A := fun w => (Raise e, w).
Definition bind {A B} (m : M A) (k : A -> M B) : M B :=
  fun w => match m w with
           | (Ok a, w') => k a w'
           | (Raise e, w') => (Raise e, w')
           end.
(** [try: m except classes as e: h e]; an exception of another class
    passes through. *)
Definition try_except {A} (m : M A) (classes : list exn_class)
    (h : exn -> M A) : M A :=
  fun w => match m w with
           | (Ok a, w') => (Ok a, w')
           | (Raise e, w') =>
               if caught_by classes e then h e w' else (Raise e, w')
           end.
(** [try: m except Exception as e: h e]. *)
Definition try_except_Exception {A} (m : M A) (h : exn -> M A) : M A :=
  fun w => match m w with
           | (Ok a, w') => (Ok a, w')
           | (Raise e, w') => h e w'
           end.

Declare Scope py_scope.
Delimit Scope py_scope with py.
Notation "x <- m ;; k" := (bind m (fun x => k))
  (at level 100, m at level 90, right associativity) : py_scope.
Notation "m ;;; k" := (bind m (fun _ => k))
  (at level 100, right associativity) : py_scope.
Local Open Scope py_scope.

Definition logger_error (line : string) : M unit :=
  fun w => (Ok tt, add_log line w).

(** One call into the store or the cache: it takes the next entry of the
    fault script and raises what it finds there. *)
Definition io : M unit :=
  fun w => match faults w with
           | [] => (Ok tt, w)
           | None :: fs => (Ok tt, set_faults fs w)
           | Some e :: fs => (Raise e, set_faults fs w)
           end.

(** *** The relational store *)

(** [init_async_db]: [async_engine = await create_async_engine(DATABASE_URL)]. *)
Definition init_async_db : M unit :=
  io ;;; (fun w => (Ok tt, set_engine true w)).

(** [get_engine]: the engine is created on first use. *)
Definition get_engine : M unit :=
  fun w => if async_engine w then (Ok tt, w) else init_async_db w.

(** [engine.acquire()]. *)
Definition engine_acquire : M unit := io.

Definition has_sector (s : string) (t : Topic) : bool := String.eqb (sector t) s.

(** [connection.execute("SELECT ... FROM topics WHERE sector = :sector")]:
    the rows of that sector, in table order. *)
Definition execute_select (s : string) : M (list Topic) :=
  io ;;; (fun w => (Ok (List.filter (has_sector s) (topics w)), w)).

(** [result.fetchone()]: the first row, or [None]. *)
Definition fetchone (rows : list Topic) : M (option Topic) :=
  io ;;; ret (head rows).

(** [connection.execute("SELECT sector, content, last_update FROM topics")]
    with the rows the [async for] walks through. *)
Definition execute_scan : M (list Topic) :=
  io ;;; (fun w => (Ok (topics w), w)).

Definition utcnow : M Z := fun w => (Ok (clock w), w).

(** *** The Redis cache *)

(** The entry a [get] sees: a key past its expiry is gone. *)
Definition live (now : Z) (e : CacheEntry) : option blob :=
  if now <? expires_at e then Some (payload e) else None.

Definition cache_lookup (w : World) (key : string) : option blob :=
  redis w !! key ≫= live (clock w).

(** [redis_client.get(key)]. *)
Definition redis_get (key : string) : M (option blob) :=
  io ;;; (fun w => (Ok (cache_lookup w key), w)).

(** [redis_client.setex(key, seconds, value)]. *)
Definition redis_setex (key : string) (seconds : Z) (value : blob) : M unit :=
  io ;;; (fun w =>
    (Ok tt,
     set_redis (insert key (mkEntry value (clock w + seconds * us_per_second))) w)).

(** *** HTTP *)

(** [session.get(url, params={'sector': sector})]: the call leaves the
    process, and the server answers or the transport raises. *)
Definition session_get (server : World -> string -> HttpOutcome) (c : Call)
    (s : string) : M (Z * blob) :=
  fun w => match server w s with
           | NetFail e => (Raise e, add_call c w)
           | Response status body => (Ok (status, body), add_call c w)
           end.

(** [json.loads], and [response.json()] on the body of an answer whose
    content type aiohttp accepts; the body of an answer under another
    content type counts as [Garbage], since [response.json()] raises on it
    before it looks at the text. *)
Definition json_loads (b : blob) : M json :=
  match b with
  | Serialized j => ret j
  | Garbage _ => raise (Exn JSONDecodeError "Expecting value: line 1 column 1 (char 0)")
  end.

(** ** [fetch_api_data] (main.py, lines 91-104) *)

(** Python's [None] is the JSON [null]: a failed fetch returns [JNull]. *)
Definition fetch_api_data (s : string) : M json :=
  try_except
    (resp <- session_get api_server (RefreshCall s) s ;;
     if fst resp =? 200 then
       data <- json_loads (snd resp) ;;
       redis_setex ("api_" ++ s) 3600 (json_dumps data) ;;;
       ret data
     else
       raise (Exn ValueError ("API returned status code " ++ pretty (fst resp))))
    [ClientError; ValueError; JSONDecodeError]
    (fun e =>
       logger_error ("Error fetching API data for sector " ++ s ++ ": " ++ exn_str e) ;;;
       ret JNull).

(** ** [should_fetch_from_api] (lines 135-138) *)

(** [not topic or (utcnow() - topic.last_update).days > 7]. *)
Definition should_fetch_from_api (s : string) : M bool :=
  result <- execute_select s ;;
  topic <- fetchone result ;;
  match topic with
  | None => ret true
  | Some t => now <- utcnow ;; ret (timedelta_days (now - last_update t) >? 7)
  end.

(** ** [get_advanced_topic_content] (lines 108-133) *)

Definition nl : string := String (ascii_of_nat 10) EmptyString.

Fixpoint mapM {A B} (f : A -> M B) (l : list A) : M (list B) :=
  match l with
  | [] => ret []
  | x :: rest => y <- f x ;; ys <- mapM f rest ;; ret (y :: ys)
  end.

(** [for item in academic_data]: a list gives its items, a dict its keys, a
    string its characters; nothing else is iterable. *)
Definition iter_json (j : json) : M (list json) :=
  match j with
  | JArr items => ret items
  | JObj fields => ret (map (fun kv => JStr (fst kv)) fields)
  | JStr s => ret (map (fun c => JStr (String c EmptyString)) (list_ascii_of_string s))
  | _ => raise (Exn TypeError "object is not iterable")
  end.

(** [item['summary']]. *)
Definition subscript_summary (item : json) : M json :=
  match item with
  | JObj fields =>
      match dict_get "summary" fields with
      | Some v => ret v
      | None => raise (Exn KeyError "'summary'")
      end
  | JArr _ => raise (Exn TypeError "list indices must be integers or slices, not str")
  | JStr _ => raise (Exn TypeError "string indices must be integers")
  | _ => raise (Exn TypeError "object is not subscriptable")
  end.

(** An operand of [str.join] must be a [str]. *)
Definition as_str (j : json) : M string :=
  match j with
  | JStr s => ret s
  | _ => raise (Exn TypeError "sequence item: expected str instance")
  end.

(** ["\n".join([item['summary'] for item in academic_data])]: the
    comprehension runs to its end before [join] looks at the items. *)
Definition join_summaries (academic_data : json) : M string :=
  items <- iter_json academic_data ;;
  summaries <- mapM subscript_summary items ;;
  lines <- mapM as_str summaries ;;
  ret (String.concat nl lines).

Section Orchestrator.

(** [main.py] calls [update_topic_from_api] and [fetch_academic_resources]
    and defines neither (line 106: "Placeholder for other async
    functions").  The orchestrator is written over any two such
    coroutines; [fetch_academic_resources] returns bytes or [None]. *)
Variable update_topic_from_api : string -> M unit.
Variable fetch_academic_resources : string -> M (option blob).

(** Lines 120-127: the context the answer is built on. *)
Definition build_context (topic : Topic) (s : string) (offline_mode : bool)
    : M string :=
  let context := content topic in
  if negb offline_mode then
    cached <- redis_get ("academic_" ++ s) ;;
    academic_data <- match cached with
                     | None => fetch_academic_resources s
                     | Some b => ret (Some b)
                     end ;;
    match academic_data with
    | Some b =>
        if blob_truthy b then
          parsed <- json_loads b ;;
          joined <- join_summaries parsed ;;
          ret (context ++ nl ++ joined)%string
        else ret context
    | None => ret context
    end
  else ret context.

(** Lines 112-113: the refresh, when the request is online and the
    stored row is stale or missing. *)
Definition refresh_step (s : string) (offline_mode : bool) : M unit :=
  if negb offline_mode then
    stale <- should_fetch_from_api s ;;
    if stale then update_topic_from_api s else ret tt
  else ret tt.

(** Lines 115-130: the read of the row and the answer. *)
Definition read_and_answer (question s : string) (offline_mode : bool)
    : M (string * option string) :=
  result <- execute_select s ;;
  topic <- fetchone result ;;
  match topic with
  | None => ret ("I'm sorry, I don't have information on that sector.", None)
  | Some t =>
      context <- build_context t s offline_mode ;;
      (* Placeholder for NLP model response *)
      ret ("Answer based on the context", Some (further_reading t))
  end.

(** Lines 110-130: the body of the [try]. *)
Definition retrieval (question s : string) (offline_mode : bool)
    : M (string * option string) :=
  get_engine ;;;
  engine_acquire ;;;
  refresh_step s offline_mode ;;;
  read_and_answer question s offline_mode.

Definition get_advanced_topic_content (question s : string)
    (offline_mode : bool) : M (string * option string) :=
  try_except_Exception
    (retrieval question s offline_mode)
    (fun e =>
       logger_error ("Error retrieving content for sector " ++ s ++ ": " ++ exn_str e) ;;;
       ret (("An error occurred: " ++ exn_str e)%string, None)).

End Orchestrator.

(** ** [advanced_search] (lines 140-152) *)

Definition Qltb (a b : Q) : bool := negb (Qle_bool b a).

(** A search result: [(topic.sector, topic.content, score)]. *)
Definition SearchResult : Type := string * string * Q.
Definition score_of (r : SearchResult) : Q := snd r.

(** [sorted(results, key=lambda x: x[2], reverse=True)]: Python's sort is
    stable, also with [reverse=True], so an item moves left only past items
    of a strictly smaller score.  A stable sort has one result; it is
    written here as an insertion sort. *)
Fixpoint insert_desc (x : SearchResult) (l : list SearchResult) : list SearchResult :=
  match l with
  | [] => [x]
  | y :: rest =>
      if Qltb (score_of x) (score_of y) then y :: insert_desc x rest
      else x :: y :: rest
  end.

Definition sorted_desc (l : list SearchResult) : list SearchResult :=
  fold_right insert_desc [] l.

Section Search.

(** The relevance policy: query, content, last_update and the
    preferences (a JSON object or [None]) to a score. *)
Variable relevance : string -> string -> Z -> option json -> Q.

(** The loop of lines 143-147 over the scanned rows. *)
Definition collect (query : string) (user_preferences : option json)
    (rows : list Topic) : list SearchResult :=
  fold_left
    (fun results topic =>
       let score := relevance query (content topic) (last_update topic)
                              user_preferences in
       if Qltb 0 score then (results ++ [(sector topic, content topic, score)])%list
       else results)
    rows [].

Definition advanced_search_with (query : string)
    (user_preferences : option json) : M (list SearchResult) :=
  get_engine ;;;
  engine_acquire ;;;
  rows <- execute_scan ;;
  ret (firstn 10 (sorted_desc (collect query user_preferences rows))).

End Search.

(** Lines 150-152: "Simplified relevance calculation", the constant 0.5. *)
Definition calculate_relevance_score (query content : string) (last_update : Z)
    (user_preferences : option json) : Q := 1 # 2.

Definition advanced_search : string -> option json -> M (list SearchResult) :=
  advanced_search_with calculate_relevance_score.

(** ** The two coroutines that [main.py] leaves out *)

(** Modelled from the spec: the payload of a successful refresh, for
    [update_topic_from_api] (absent from [main.py]).  Spec 8, Scenario A:
    "External Refresh Client returns {content: ..., further_reading: ...}";
    an object with a string [content] and a string [further_reading]. *)
Definition refresh_payload (data : json) : option (string * string) :=
  match data with
  | JObj fields =>
      match dict_get "content" fields, dict_get "further_reading" fields with
      | Some (JStr c), Some (JStr fr) => Some (c, fr)
      | _, _ => None
      end
  | _ => None
  end.

(** Modelled from the spec: the upsert of [update_topic_from_api] (absent
    from [main.py]).  Spec 4.2: "upsert the Topic Store (overwrite
    content/further_reading, set last_update = now)"; the rows of the
    sector are overwritten, or one is added when there is none. *)
Definition upsert (s c fr : string) (now : Z) (rows : list Topic) : list Topic :=
  if existsb (has_sector s) rows then
    map (fun t => if has_sector s t then mkTopic s c fr now else t) rows
  else (rows ++ [mkTopic s c fr now])%list.

(** Modelled from the spec: the store call that carries the upsert of
    [update_topic_from_api]. *)
Definition db_upsert (s c fr : string) (now : Z) : M unit :=
  io ;;; (fun w => (Ok tt, set_topics (upsert s c fr now) w)).

(** Modelled from the spec: [update_topic_from_api] is called on line 113
    and defined nowhere in [main.py].  Spec 4.2: "invoke External Refresh
    Client for sector.  On success, upsert the Topic Store (overwrite
    content/further_reading, set last_update = now) ...  On failure (network
    error, non-success status, malformed payload), log and proceed with
    whatever is currently stored (graceful degradation - failure to refresh
    is never fatal to the request)"; spec 7: a transport failure (network or
    timeout) or a malformed response during the refresh is "caught at the
    orchestrator boundary, logged, and downgraded to proceed without this
    data".  The client is [fetch_api_data], which also fills the cache; what
    it lets through (an exception of a class it does not name) is caught
    here, logged, and counts as no data. *)
Definition spec_update_topic_from_api (s : string) : M unit :=
  data <- try_except_Exception
            (fetch_api_data s)
            (fun e =>
               logger_error ("Error refreshing sector " ++ s ++ ": " ++ exn_str e) ;;;
               ret JNull) ;;
  match refresh_payload data with
  | Some (c, fr) => now <- utcnow ;; db_upsert s c fr now
  | None => logger_error ("No usable refresh payload for sector " ++ s)
  end.

(** Modelled from the spec: an enrichment payload, for
    [fetch_academic_resources] (absent from [main.py]).  Spec 6: "JSON
    array of {summary: string, ...}". *)
Definition has_summary (item : json) : bool :=
  match item with
  | JObj fields =>
      match dict_get "summary" fields with
      | Some (JStr _) => true
      | _ => false
      end
  | _ => false
  end.

(** Modelled from the spec: the whole array of an enrichment payload. *)
Definition enrichment_payload (data : json) : bool :=
  match data with
  | JArr items => forallb has_summary items
  | _ => false
  end.

(** Modelled from the spec: what the Enrichment Client of
    [fetch_academic_resources] hands back, the array of a 200 answer or a
    failure (spec 6: "JSON array of {summary: string, ...} | failure"). *)
Definition enrichment_response (o : HttpOutcome) : option json :=
  match o with
  | Response status (Serialized data) =>
      if (status =? 200) && enrichment_payload data then Some data else None
  | _ => None
  end.

(** Modelled from the spec: [fetch_academic_resources] is called on line
    124 and defined nowhere in [main.py].  Spec 4.2 and 6: "on miss, call
    Enrichment Client, and on success cache the result for a TTL window (1
    hour)"; "Enrichment Client: fetch(sector) -> JSON array of {summary:
    string, ...} | failure"; a failure is logged and gives no data. *)
Definition spec_fetch_academic_resources (s : string) : M (option blob) :=
  fun w =>
    let w1 := add_call (EnrichCall s) w in
    match enrichment_response (academic_server w s) with
    | Some data =>
        (redis_setex ("academic_" ++ s) 3600 (json_dumps data) ;;;
         ret (Some (json_dumps data))) w1
    | None =>
        (logger_error ("Error fetching academic resources for sector " ++ s) ;;;
         ret None) w1
    end.

(** The retrieval operation of the spec: the orchestrator of [main.py] with
    the two coroutines above. *)
Definition get_topic_content : string -> string -> bool -> M (string * option string) :=
  get_advanced_topic_content spec_update_topic_from_api spec_fetch_academic_resources.

(** ** Vocabulary of the statements *)

(** The stored Topic of a sector: the row a point lookup returns. *)
Definition stored_topic (w : World) (s : string) : option Topic :=
  head (List.filter (has_sector s) (topics w)).

(** What a call into the store leaves alone: everything but the fault
    script and the engine handle. *)
Definition same_data (w w' : World) : Prop :=
  topics w' = topics w /\ redis w' = redis w /\ clock w' = clock w /\
  api_server w' = api_server w /\ academic_server w' = academic_server w /\
  calls w' = calls w /\ log w' = log w.

(** The refresh fails: the transport raises (a network error, a timeout,
    whatever the class of the exception), the status is not 200, the body
    is not JSON, or the JSON document lacks one of the two fields. *)
Definition refresh_fails (o : HttpOutcome) : bool :=
  match o with
  | NetFail _ => true
  | Response status body =>
      if status =? 200 then
        match body with
        | Serialized data =>
            match refresh_payload data with Some _ => false | None => true end
        | Garbage _ => true
        end
      else true
  end.

(** The bytes cached for the enrichment of a sector, if any, are empty or
    an enrichment payload. *)
Definition enrichment_blob_ok (b : blob) : bool :=
  match b with
  | Serialized data => enrichment_payload data
  | Garbage raw => String.eqb raw ""
  end.

Definition enrichment_ok (w : World) (s : string) : bool :=
  match cache_lookup w ("academic_" ++ s) with
  | Some b => enrichment_blob_ok b
  | None => true
  end.

(** The summaries of an enrichment payload, in the order received. *)
Definition summary_of (item : json) : list string :=
  match item with
  | JObj fields =>
      match dict_get "summary" fields with
      | Some (JStr text) => [text]
      | _ => []
      end
  | _ => []
  end.

Definition summary_lines (data : json) : list string :=
  match data with
  | JArr items => flat_map summary_of items
  | _ => []
  end.

Definition is_enrich_call (c : Call) : bool :=
  match c with EnrichCall _ => true | RefreshCall _ => false end.

Definition is_refresh_call (c : Call) : bool :=
  match c with RefreshCall _ => true | EnrichCall _ => false end.

(** Two worlds that differ at most in their [api_*] cache entries. *)
Definition api_equiv (w1 w2 : World) : Prop :=
  topics w1 = topics w2 /\ clock w1 = clock w2 /\
  async_engine w1 = async_engine w2 /\
  api_server w1 = api_server w2 /\ academic_server w1 = academic_server w2 /\
  faults w1 = faults w2 /\ calls w1 = calls w2 /\ log w1 = log w2 /\
  forall key : string, String.prefix "api_" key = false ->
    redis w1 !! key = redis w2 !! key.

(** What the enrichment leaves alone. *)
Definition enrich_frame (s : string) (w w' : World) : Prop :=
  topics w' = topics w /\ faults w' = faults w /\ clock w' = clock w /\
  async_engine w' = async_engine w /\
  api_server w' = api_server w /\ academic_server w' = academic_server w /\
  (forall c, is_refresh_call c = true -> In c (calls w') <-> In c (calls w)) /\
  forall key : string, key <> ("academic_" ++ s)%string ->
    redis w' !! key = redis w !! key.

(** The order of the results: no score rises along the sequence. *)
Definition desc (a b : SearchResult) : Prop := (score_of b <= score_of a)%Q.

(** The results whose score is [k]. *)
Definition ties (k : Q) (r : SearchResult) : bool := Qeq_bool (score_of r) k.

(** The result a row gives under a relevance policy, and the rows that
    qualify. *)
Definition scored (rel : string -> string -> Z -> option json -> Q)
    (q : string) (prefs : option json) (t : Topic) : SearchResult :=
  (sector t, content t, rel q (content t) (last_update t) prefs).

Definition positive (r : SearchResult) : bool := Qltb 0 (score_of r).

(** A computation that cannot tell two [api_equiv] worlds apart, in its
    result or in what it leaves behind. *)
Definition ni {A} (m : M A) : Prop :=
  forall w1 w2, api_equiv w1 w2 ->
    fst (m w1) = fst (m w2) /\ api_equiv (snd (m w1)) (snd (m w2)).

(** Every live enrichment entry of the cache is well formed; a computation
    [keeps] a property of the world when it holds after every run that
    started with it, returned or raised. *)
Definition enrichment_cache_ok (w : World) : Prop :=
  forall s, enrichment_ok w s = true.

Definition keeps {A} (I : World -> Prop) (m : M A) : Prop :=
  forall w, I w -> I (snd (m w)).

(** ** Sample worlds *)

Definition no_server (s : string) : HttpOutcome :=
  NetFail (Exn ClientError "Cannot connect to host").

Definition newton : json :=
  JObj [("content", JStr "Newton's laws..."); ("further_reading", JStr "http://x")].

Definition newton_server (s : string) : HttpOutcome :=
  Response 200 (Serialized newton).

Definition physics_row (age : Z) : Topic :=
  mkTopic "physics" "Stored physics notes" "http://old" (1000 * us_per_day - age).

(** An empty store, a refresh server that answers, no enrichment. *)
Definition w_empty : World :=
  mkWorld [] ∅ (1000 * us_per_day) false newton_server no_server [] [] [].

(** "physics" stored [age] microseconds ago, a refresh server that
    answers. *)
Definition w_aged (age : Z) : World :=
  mkWorld [physics_row age] ∅ (1000 * us_per_day) false newton_server
          no_server [] [] [].

(** "physics" stored ten days ago, both servers down. *)
Definition w_stale_down : World :=
  mkWorld [physics_row (10 * us_per_day)] ∅ (1000 * us_per_day) false
          no_server no_server [] [] [].

(** A store that cannot be reached. *)
Definition w_db_down : World :=
  mkWorld [physics_row 0] ∅ (1000 * us_per_day) false no_server no_server
          [Some (Exn SQLAlchemyError "could not connect to server")] [] [].

(** Scenario C: three topics whose relevance is 0.8, 0 and 0.3. *)
Definition rel_scenario_c (query content : string) (last_update : Z)
    (user_preferences : option json) : Q :=
  if String.eqb content "Gravity pulls" then 8 # 10
  else if String.eqb content "Orbits and tides" then 3 # 10
  else 0.

Definition w_three : World :=
  mkWorld [mkTopic "topic1" "Gravity pulls" "http://1" 0;
           mkTopic "topic2" "Cell biology" "http://2" 0;
           mkTopic "topic3" "Orbits and tides" "http://3" 0]
          ∅ (1000 * us_per_day) false no_server no_server [] [] [].

(** Two summaries behind the enrichment server. *)
Definition two_summaries : json :=
  JArr [JObj [("summary", JStr "First law: inertia")];
        JObj [("title", JStr "Principia"); ("summary", JStr "Second law: F = ma")]].

Definition w_enriching : World :=
  mkWorld [physics_row 0] ∅ (1000 * us_per_day) false no_server
          (fun _ => Response 200 (Serialized two_summaries)) [] [] [].

(** [w_stale_down] with a foreign entry under [api_physics]. *)
Definition w_stale_down_tampered : World :=
  set_redis (insert "api_physics"
               (mkEntry (Garbage "tampered") (2000 * us_per_day)))
            w_stale_down.

(** Scenario B: "physics" stored ten days ago, the refresh client times
    out (an exception [fetch_api_data] does not name). *)
Definition w_stale_timeout : World :=
  mkWorld [physics_row (10 * us_per_day)] ∅ (1000 * us_per_day) false
          (fun _ => NetFail (Exn OtherError "timeout")) no_server [] [] [].

(** ** The start-up hook and the two routes (lines 87-89, 154-167) *)

(** [startup_event]: [await get_engine()]. *)
Definition startup_event : M unit := get_engine.

(** The truth value Python gives a value read from the body
    ([if not offline_mode]): [None], [False], zero and the empty string,
    list and dict are false. *)
Definition py_truthy (j : json) : bool :=
  match j with
  | JNull => false
  | JBool b => b
  | JNum n => negb (n =? 0)
  | JStr s => negb (String.eqb s "")
  | JArr items => match items with [] => false | _ => true end
  | JObj fields => match fields with [] => false | _ => true end
  end.

(** The body of a [/get_topic_content] request: each key the route reads,
    absent or present.  [question] and [sector] are strings, as the
    coroutine they are handed to takes them; [offline_mode] is whatever
    JSON value the caller sent. *)
Record TopicBody := mkTopicBody {
  body_question : option string;
  body_sector : option string;
  body_offline_mode : option json
}.

(** The body of an [/advanced_search] request. *)
Record SearchBody := mkSearchBody {
  body_query : option string;
  body_preferences : option json
}.

(** [data.get(key, default)] for the three kinds of key. *)
Definition get_text (field : option string) : string :=
  match field with Some s => s | None => "" end.

Definition get_flag (field : option json) : bool :=
  match field with Some j => py_truthy j | None => false end.

(** [data.get('preferences', None)]: a JSON [null] is Python's [None]. *)
Definition get_preferences (field : option json) : option json :=
  match field with
  | Some JNull => None
  | other => other
  end.

(** [{"answer": answer, "link": link}]. *)
Definition topic_reply (r : string * option string) : json :=
  JObj [("answer", JStr (fst r));
        ("link", match snd r with Some l => JStr l | None => JNull end)].

Section TopicRoute.

Variable update_topic_from_api : string -> M unit.
Variable fetch_academic_resources : string -> M (option blob).

(** Lines 154-160. *)
Definition get_topic_content_route (data : TopicBody) : M json :=
  let question := get_text (body_question data) in
  let s := get_text (body_sector data) in
  let offline_mode := get_flag (body_offline_mode data) in
  r <- get_advanced_topic_content update_topic_from_api
         fetch_academic_resources question s offline_mode ;;
  ret (topic_reply r).

End TopicRoute.

(** [content[:200] + '...' if len(content) > 200 else content]: the
    conditional binds weaker than [+]. *)
Definition snippet (text : string) : string :=
  if Nat.ltb 200 (String.length text)
  then (String.substring 0 200 text ++ "...")%string
  else text.

(** One dict of the search reply: [{"sector": ..., "content": ...,
    "score": ...}]. *)
Record SearchHit := mkHit {
  hit_sector : string;
  hit_content : string;
  hit_score : Q
}.

Definition render_hit (r : SearchResult) : SearchHit :=
  mkHit (fst (fst r)) (snippet (snd (fst r))) (snd r).

Section SearchRoute.

Variable relevance : string -> string -> Z -> option json -> Q.

(** Lines 162-167, over a relevance policy. *)
Definition advanced_search_route_with (data : SearchBody) : M (list SearchHit) :=
  let query := get_text (body_query data) in
  let user_preferences := get_preferences (body_preferences data) in
  results <- advanced_search_with relevance query user_preferences ;;
  ret (map render_hit results).

End SearchRoute.

Definition advanced_search_route : SearchBody -> M (list SearchHit) :=
  advanced_search_route_with calculate_relevance_score.

(** ** More vocabulary *)

(** The values [join_summaries] can turn into lines: an array of objects
    with a string [summary], and the two empty iterables that give no
    item at all. *)
Definition joinable (data : json) : bool :=
  match data with
  | JArr items => forallb has_summary items
  | JObj fields => match fields with [] => true | _ => false end
  | JStr s => String.eqb s ""
  | _ => false
  end.

(** [json.loads] followed by the join of the summaries, as [build_context]
    runs them on the bytes it found. *)
Definition decode_summaries (b : blob) : M string :=
  parsed <- json_loads b ;; join_summaries parsed.

(** The scores of a reply never rise. *)
Definition hits_desc (a b : SearchHit) : Prop := (hit_score b <= hit_score a)%Q.

(** The three texts of a reply of the orchestrator.  Only the answer can
    come with a link; whether it does is the row's [further_reading]. *)
Definition reply_shape (r : string * option string) : Prop :=
  r = ("I'm sorry, I don't have information on that sector.", None)
  \/ (exists l, r = ("Answer based on the context", l))
  \/ (exists e, r = (("An error occurred: " ++ exn_str e)%string, None)).



(** The exceptions the merge of the summaries raises. *)
Definition join_error (e : exn) : Prop :=
  exn_cls e = TypeError \/ exn_cls e = KeyError.

(** ** More sample worlds *)

(** "physics" stored today; the enrichment entry holds bytes that are not
    JSON. *)
Definition w_bad_cache : World :=
  mkWorld [physics_row 0]
          (<["academic_physics" := mkEntry (Garbage "<html>") (2000 * us_per_day)]> ∅)
          (1000 * us_per_day) false no_server no_server [] [] [].

(** "physics" stored today; the enrichment entry holds the empty byte
    string. *)
Definition w_empty_cache_entry : World :=
  mkWorld [physics_row 0]
          (<["academic_physics" := mkEntry (Garbage "") (2000 * us_per_day)]> ∅)
          (1000 * us_per_day) false no_server no_server [] [] [].

(** The refresh server answers, the cache is down. *)
Definition w_cache_down : World :=
  mkWorld [] ∅ (1000 * us_per_day) true newton_server no_server
          [Some (Exn RedisError "Connection refused")] [] [].


(** The transport raises an exception [fetch_api_data] does not name. *)
Definition w_timeout : World :=
  mkWorld [] ∅ (1000 * us_per_day) true
          (fun _ => NetFail (Exn OtherError "timeout")) no_server [] [] [].

(** A refresh coroutine that raises. *)
Definition failing_refresh (s : string) : M unit :=
  raise (Exn OtherError "refresh failed").

(** * Proofs *)

Ltac world w :=
  destruct w as [tp rd ck eng api acad fl cl lg]; simpl in *; subst.

(** ** Arithmetic of the staleness test *)

Lemma timedelta_days_gt7 (d : Z) :
  (timedelta_days d >? 7) = (8 * us_per_day <=? d).
Proof.
  unfold timedelta_days.
  assert (Hpos : 0 < us_per_day) by (unfold us_per_day, us_per_second; lia).
  destruct (Z.leb_spec (8 * us_per_day) d) as [H|H].
  - apply Z.gtb_lt.
    assert (8 <= d / us_per_day) by (apply Z.div_le_lower_bound; lia). lia.
  - destruct (Z.gtb_spec (d / us_per_day) 7) as [H'|H']; [|reflexivity].
    exfalso. assert (d / us_per_day < 8) by (apply Z.div_lt_upper_bound; lia). lia.
Qed.

(** ** Frames of the store calls *)

Lemma same_data_refl w : same_data w w.
Proof. repeat split. Qed.

Lemma same_data_trans w1 w2 w3 :
  same_data w1 w2 -> same_data w2 w3 -> same_data w1 w3.
Proof. unfold same_data. intuition congruence. Qed.

Lemma io_frame w : same_data w (snd (io w)).
Proof. world w. unfold io; simpl. destruct fl as [|[e|] fl]; repeat split. Qed.

Lemma get_engine_frame w : same_data w (snd (get_engine w)).
Proof.
  world w. unfold get_engine, init_async_db, bind, io; simpl.
  destruct eng; [repeat split|]. destruct fl as [|[e|] fl]; repeat split.
Qed.

Lemma execute_select_spec s w :
  same_data w (snd (execute_select s w)) /\
  forall rows, fst (execute_select s w) = Ok rows ->
    rows = List.filter (has_sector s) (topics w).
Proof.
  world w. unfold execute_select, bind, io; simpl.
  destruct fl as [|[e|] fl]; simpl; (split; [repeat split|]);
    intros rows H; congruence.
Qed.

Lemma fetchone_spec rows w :
  same_data w (snd (fetchone rows w)) /\
  forall t, fst (fetchone rows w) = Ok t -> t = head rows.
Proof.
  world w. unfold fetchone, bind, io, ret; simpl.
  destruct fl as [|[e|] fl]; simpl; (split; [repeat split|]);
    intros t H; congruence.
Qed.

(** Whatever the store does, a decision that comes back is the one the
    stored row and the clock determine. *)
Lemma should_fetch_sound s w :
  same_data w (snd (should_fetch_from_api s w)) /\
  forall b, fst (should_fetch_from_api s w) = Ok b ->
    b = match stored_topic w s with
        | None => true
        | Some t => timedelta_days (clock w - last_update t) >? 7
        end.
Proof.
  unfold should_fetch_from_api, bind.
  destruct (execute_select_spec s w) as [F1 R1].
  destruct (execute_select s w) as [[rows|e] w1]; simpl in *;
    [|split; [done|discriminate]].
  specialize (R1 rows eq_refl); subst rows.
  destruct (fetchone_spec (List.filter (has_sector s) (topics w)) w1) as [F2 R2].
  destruct (fetchone _ w1) as [[t|e] w2]; simpl in *;
    [|split; [eauto using same_data_trans|discriminate]].
  specialize (R2 t eq_refl); subst t.
  unfold stored_topic.
  destruct (head _) as [t|]; simpl.
  - split; [eauto using same_data_trans|]. intros b [= <-].
    destruct F2 as (_ & _ & -> & _). destruct F1 as (_ & _ & -> & _). reflexivity.
  - split; [eauto using same_data_trans|]. intros b [= <-]. reflexivity.
Qed.

Lemma should_fetch_nofault s w :
  faults w = [] ->
  should_fetch_from_api s w =
    (Ok (match stored_topic w s with
         | None => true
         | Some t => 8 * us_per_day <=? clock w - last_update t
         end), w).
Proof.
  intros Hf. world w.
  unfold should_fetch_from_api, stored_topic, bind, execute_select, fetchone, bind, io.
  simpl.
  destruct (List.filter (has_sector s) tp) as [|t rows]; simpl; [reflexivity|].
  unfold bind, utcnow, ret; simpl. now rewrite timedelta_days_gt7.
Qed.

(** A fresh row keeps the orchestrator away from the refresh, whatever the
    store does. *)
Lemma fresh_skips_refresh upd upd' s w t :
  stored_topic w s = Some t ->
  clock w - last_update t < 8 * us_per_day ->
  refresh_step upd s false w = refresh_step upd' s false w.
Proof.
  intros Hst Hage. unfold refresh_step, bind. simpl.
  destruct (should_fetch_sound s w) as [_ R].
  destruct (should_fetch_from_api s w) as [[b|e] w3]; simpl in *; [|reflexivity].
  specialize (R b eq_refl). rewrite Hst, timedelta_days_gt7 in R.
  assert (b = false) as -> by (subst b; apply Z.leb_gt; lia).
  reflexivity.
Qed.

Lemma fresh_skips_refresh_request upd upd' fa q s w t :
  stored_topic w s = Some t ->
  clock w - last_update t < 8 * us_per_day ->
  get_advanced_topic_content upd fa q s false w =
  get_advanced_topic_content upd' fa q s false w.
Proof.
  intros Hst Hage.
  unfold get_advanced_topic_content, try_except_Exception, retrieval, bind.
  pose proof (get_engine_frame w) as F1.
  destruct (get_engine w) as [[[]|e] w1]; simpl in *; [|reflexivity].
  pose proof (io_frame w1) as F2. unfold engine_acquire.
  destruct (io w1) as [[[]|e] w2]; simpl in *; [|reflexivity].
  destruct (same_data_trans _ _ _ F1 F2) as (Htp & _ & Hck & _).
  rewrite (fresh_skips_refresh upd upd' s w2 t); [reflexivity| |].
  - unfold stored_topic in *. now rewrite Htp.
  - now rewrite Hck.
Qed.

Lemma refresh_step_stale upd s w :
  faults w = [] ->
  match stored_topic w s with
  | None => True
  | Some t => 8 * us_per_day <= clock w - last_update t
  end ->
  refresh_step upd s false w = upd s w.
Proof.
  intros Hf Hstale. unfold refresh_step, bind. simpl.
  rewrite (should_fetch_nofault s w Hf).
  destruct (stored_topic w s) as [t|]; [|reflexivity].
  apply Z.leb_le in Hstale. now rewrite Hstale.
Qed.

Lemma refresh_step_fresh upd s w t :
  faults w = [] ->
  stored_topic w s = Some t ->
  clock w - last_update t < 8 * us_per_day ->
  refresh_step upd s false w = (Ok tt, w).
Proof.
  intros Hf Hst Hage. unfold refresh_step, bind. simpl.
  rewrite (should_fetch_nofault s w Hf), Hst.
  apply Z.leb_gt in Hage. now rewrite Hage.
Qed.

(** C2 (as amended).  With the store answering, [should_fetch_from_api]
    returns true exactly when the sector has no stored Topic or
    [now - last_update] is at least 8 days: [timedelta.days] drops the part
    of a day, so [.days > 7] needs eight whole days.  A Topic younger than
    8 days (so also one of at most 7 days) never reaches the refresh
    coroutine, whatever the store does; a missing or 8-day-old Topic makes
    the refresh step run it. *)
Theorem freshness_decision (s : string) (w : World) :
  faults w = [] ->
  should_fetch_from_api s w =
    (Ok (match stored_topic w s with
         | None => true
         | Some t => 8 * us_per_day <=? clock w - last_update t
         end), w)
  /\ (forall upd upd' fa q t w0,
        stored_topic w0 s = Some t ->
        clock w0 - last_update t < 8 * us_per_day ->
        refresh_step upd s false w0 = refresh_step upd' s false w0 /\
        get_advanced_topic_content upd fa q s false w0 =
        get_advanced_topic_content upd' fa q s false w0)
  /\ (forall upd,
        match stored_topic w s with
        | None => True
        | Some t => 8 * us_per_day <= clock w - last_update t
        end ->
        refresh_step upd s false w = upd s w).
Proof.
  intros Hf. split; [now apply should_fetch_nofault|]. split.
  - intros upd upd' fa q t w0 Hst Hage. split.
    + now apply fresh_skips_refresh with t.
    + now apply fresh_skips_refresh_request with t.
  - intros upd Hstale. now apply refresh_step_stale.
Qed.

Lemma freshness_decision_witness :
  should_fetch_from_api "physics" (w_aged (8 * us_per_day)) =
    (Ok true, w_aged (8 * us_per_day)).
Proof.
  destruct (freshness_decision "physics" (w_aged (8 * us_per_day)) eq_refl)
    as [H _].
  exact H.
Defined.

(** C2 as stated fails: a Topic aged 7 days and 1 second exceeds the 7-day
    window, yet the decision is "fresh" and the request makes no call to
    the refresh client. *)
Lemma freshness_7d1s_counterexample :
  let w := w_aged (7 * us_per_day + us_per_second) in
  stored_topic w "physics" = Some (physics_row (7 * us_per_day + us_per_second))
  /\ 7 * us_per_day < clock w - last_update (physics_row (7 * us_per_day + us_per_second))
  /\ fst (should_fetch_from_api "physics" w) = Ok false
  /\ calls (snd (get_topic_content "q" "physics" false w)) = [EnrichCall "physics"].
Proof. vm_compute. repeat split. Qed.

(** ** The catch-all handler *)

(** C5.  For every question, sector and mode, every behaviour of the store,
    the cache and the two servers, and every implementation of the two
    coroutines the orchestrator calls, [get_advanced_topic_content] returns
    an (answer, link) pair: the pair of the [try] body when it returns, and
    for every exception [e] raised anywhere in the body the text
    "An error occurred: " followed by [str(e)], with no link. *)
Theorem get_advanced_topic_content_always_responds
    (upd : string -> M unit) (fa : string -> M (option blob))
    (q s : string) (off : bool) (w : World) :
  (exists answer link w',
      get_advanced_topic_content upd fa q s off w = (Ok (answer, link), w'))
  /\ match retrieval upd fa q s off w with
     | (Ok r, w') => get_advanced_topic_content upd fa q s off w = (Ok r, w')
     | (Raise e, w') =>
         get_advanced_topic_content upd fa q s off w =
           (Ok (("An error occurred: " ++ exn_str e)%string, None),
            add_log ("Error retrieving content for sector " ++ s ++ ": "
                     ++ exn_str e) w')
     end.
Proof.
  unfold get_advanced_topic_content, try_except_Exception.
  destruct (retrieval upd fa q s off w) as [[[answer link]|e] w'].
  - split; [|reflexivity]. now exists answer, link, w'.
  - split; [|reflexivity]. eexists _, _, _. reflexivity.
Qed.

(** ** The search has no handler *)

Lemma advanced_search_propagates rel q prefs w e fs :
  faults w = Some e :: fs ->
  fst (advanced_search_with rel q prefs w) = Raise e.
Proof.
  intros Hf. world w.
  unfold advanced_search_with, bind, get_engine, init_async_db, bind,
    engine_acquire, io; simpl.
  destruct eng; reflexivity.
Qed.

(** C7.  With the store unreachable, [advanced_search] hands the storage
    exception to its caller; it does not return the empty result set. *)
Example advanced_search_store_down :
  fst (advanced_search "gravity" None w_db_down)
    = Raise (Exn SQLAlchemyError "could not connect to server")
  /\ fst (advanced_search "gravity" None w_db_down) <> Ok [].
Proof. split; [reflexivity|discriminate]. Qed.

(** ** Offline requests *)

Lemma offline_nofault upd fa q s w :
  faults w = [] ->
  get_advanced_topic_content upd fa q s true w =
    (Ok (match stored_topic w s with
         | None => ("I'm sorry, I don't have information on that sector.", None)
         | Some t => ("Answer based on the context", Some (further_reading t))
         end),
     set_engine true w).
Proof.
  intros Hf. world w.
  unfold get_advanced_topic_content, try_except_Exception, retrieval,
    refresh_step, read_and_answer, build_context, stored_topic,
    get_engine, init_async_db, engine_acquire, execute_select, fetchone,
    bind, io, ret; simpl.
  destruct eng; simpl; destruct (List.filter (has_sector s) tp); reflexivity.
Qed.

Lemma offline_frame upd fa q s w :
  let w' := snd (get_advanced_topic_content upd fa q s true w) in
  topics w' = topics w /\ redis w' = redis w /\ calls w' = calls w.
Proof.
  unfold get_advanced_topic_content, try_except_Exception, retrieval,
    refresh_step, read_and_answer, build_context, engine_acquire,
    logger_error, bind, ret; simpl.
  pose proof (get_engine_frame w) as F1.
  destruct (get_engine w) as [[[]|e] w1]; simpl in *;
    [|unfold same_data in F1; simpl; tauto].
  pose proof (io_frame w1) as F2.
  destruct (io w1) as [[[]|e] w2]; simpl in *;
    [|unfold same_data in *; simpl; intuition congruence].
  destruct (execute_select_spec s w2) as [F3 _].
  destruct (execute_select s w2) as [[rows|e] w3]; simpl in *;
    [|unfold same_data in *; simpl; intuition congruence].
  destruct (fetchone_spec rows w3) as [F4 _].
  destruct (fetchone rows w3) as [[[t|]|e] w4]; simpl in *;
    unfold same_data in *; simpl; intuition congruence.
Qed.

(** C8.  From a world whose store answers, two offline requests in a row
    return the same (answer, link); so does an offline request in any other
    such world with the same [topics] table.  An offline request runs
    neither coroutine that talks to a network client (its result is the
    same under any two implementations of them), and it leaves the table,
    the cache and the list of client calls as they were, whatever the store
    does. *)
Theorem offline_mode_idempotent
    (upd : string -> M unit) (fa : string -> M (option blob))
    (q s : string) (w : World) :
  faults w = [] ->
  let r1 := get_advanced_topic_content upd fa q s true w in
  let r2 := get_advanced_topic_content upd fa q s true (snd r1) in
  fst r2 = fst r1
  /\ (forall w0, faults w0 = [] -> topics w0 = topics w ->
        fst (get_advanced_topic_content upd fa q s true w0) = fst r1)
  /\ (forall upd' fa' w0,
        get_advanced_topic_content upd' fa' q s true w0 =
        get_advanced_topic_content upd fa q s true w0)
  /\ (forall w0,
        let w' := snd (get_advanced_topic_content upd fa q s true w0) in
        topics w' = topics w0 /\ redis w' = redis w0 /\ calls w' = calls w0).
Proof.
  intros Hf r1 r2. subst r1 r2.
  rewrite (offline_nofault upd fa q s w Hf). simpl.
  repeat split.
  - rewrite offline_nofault by (now destruct w). simpl.
    unfold stored_topic. now destruct w.
  - intros w0 Hf0 Htp. rewrite (offline_nofault upd fa q s w0 Hf0). simpl.
    unfold stored_topic. now rewrite Htp.
  - apply (offline_frame upd fa q s w0).
  - apply (offline_frame upd fa q s w0).
  - apply (offline_frame upd fa q s w0).
Qed.

Lemma offline_mode_idempotent_witness :
  fst (get_topic_content "q" "physics" true
         (snd (get_topic_content "q" "physics" true w_stale_down)))
  = fst (get_topic_content "q" "physics" true w_stale_down).
Proof.
  destruct (offline_mode_idempotent spec_update_topic_from_api
              spec_fetch_academic_resources "q" "physics" w_stale_down eq_refl)
    as [H _].
  exact H.
Defined.

(** ** Requests against a store and a cache that answer *)

Lemma api_key_prefix s : String.prefix "api_" ("api_" ++ s) = true.
Proof. simpl. now destruct s. Qed.

Lemma academic_key_prefix s : String.prefix "api_" ("academic_" ++ s) = false.
Proof. reflexivity. Qed.

Lemma append_empty_r (text : string) : (text ++ "")%string = text.
Proof.
  induction text as [|c text IH]; [reflexivity|].
  change (String c (text ++ "") = String c text). now rewrite IH.
Qed.

Lemma retrieval_nofault upd fa q s off w :
  faults w = [] ->
  retrieval upd fa q s off w =
    (refresh_step upd s off ;;; read_and_answer fa q s off) (set_engine true w).
Proof.
  intros Hf. world w.
  unfold retrieval, get_engine, init_async_db, engine_acquire, bind, io; simpl.
  destruct eng; reflexivity.
Qed.

Lemma mapM_subscript_summary items w :
  forallb has_summary items = true ->
  mapM subscript_summary items w =
    (Ok (map JStr (flat_map summary_of items)), w).
Proof.
  induction items as [|item items IH]; simpl; intros H; [reflexivity|].
  apply andb_prop in H as [Hi Hrest].
  unfold bind. destruct item as [| | | |?|fields]; try discriminate Hi.
  simpl in *. destruct (dict_get "summary" fields) as [[| | |text| |]|];
    try discriminate Hi.
  unfold ret at 1. now rewrite (IH Hrest).
Qed.

Lemma mapM_as_str (texts : list string) w :
  mapM as_str (map JStr texts) w = (Ok texts, w).
Proof.
  induction texts as [|text texts IH]; simpl; [reflexivity|].
  unfold bind, ret at 1. now rewrite IH.
Qed.

Lemma join_summaries_ok data w :
  enrichment_payload data = true ->
  join_summaries data w = (Ok (String.concat nl (summary_lines data)), w).
Proof.
  destruct data as [| | | |items|]; try discriminate. simpl. intros H.
  unfold join_summaries, bind, iter_json, ret at 1.
  now rewrite (mapM_subscript_summary items w H), mapM_as_str.
Qed.

(** A live enrichment entry is read and the coroutine that would fetch it
    is not run. *)
Lemma build_context_hit fa t s w data :
  faults w = [] ->
  cache_lookup w ("academic_" ++ s) = Some (Serialized data) ->
  enrichment_payload data = true ->
  build_context fa t s false w =
    (Ok (content t ++ nl ++ String.concat nl (summary_lines data))%string, w).
Proof.
  intros Hf Hhit Hwf. unfold build_context, redis_get, bind, io. simpl.
  rewrite Hf. simpl. rewrite Hhit. unfold ret at 1. simpl.
  now rewrite (join_summaries_ok data w Hwf).
Qed.

Lemma build_context_ok t s w :
  faults w = [] ->
  enrichment_ok w s = true ->
  exists ctx w',
    build_context spec_fetch_academic_resources t s false w = (Ok ctx, w')
    /\ (exists rest, ctx = (content t ++ rest)%string)
    /\ enrich_frame s w w'.
Proof.
  intros Hf Hok. unfold enrichment_ok in Hok.
  destruct (cache_lookup w ("academic_" ++ s)) as [b|] eqn:Hc.
  - destruct b as [data|raw]; simpl in Hok.
    + rewrite (build_context_hit _ t s w data Hf Hc Hok).
      eexists _, w. split; [reflexivity|]. split; [eauto|].
      repeat split; auto.
    + apply String.eqb_eq in Hok. subst raw.
      unfold build_context, redis_get, bind, io. simpl.
      rewrite Hf. simpl. rewrite Hc. unfold ret. simpl.
      exists (content t), w. split; [reflexivity|].
      split; [exists ""; now rewrite append_empty_r|].
      repeat split; auto.
  - unfold build_context, redis_get, bind, io. simpl.
    rewrite Hf. simpl. rewrite Hc.
    unfold spec_fetch_academic_resources.
    destruct (enrichment_response (academic_server w s)) as [data|] eqn:Hresp.
    + assert (Hwf : enrichment_payload data = true).
      { unfold enrichment_response in Hresp.
        destruct (academic_server w s) as [|st [d|]]; try discriminate.
        destruct (st =? 200); simpl in Hresp; [|discriminate].
        destruct (enrichment_payload d) eqn:E; [|discriminate].
        now injection Hresp as <-. }
      unfold redis_setex, bind, io, ret at 1. simpl. rewrite Hf. simpl.
      rewrite join_summaries_ok by exact Hwf.
      eexists _, _. split; [reflexivity|]. split; [eauto|].
      repeat split; simpl; auto.
      * intros Hin. apply in_app_or in Hin as [Hin|[<-|[]]]; [exact Hin|discriminate].
      * intros Hin. apply in_or_app. now left.
      * intros key Hne. now rewrite lookup_insert_ne.
    + unfold logger_error, bind, ret. simpl.
      exists (content t). eexists. split; [reflexivity|].
      split; [exists ""; now rewrite append_empty_r|].
      repeat split; simpl; auto.
      * intros Hin. apply in_app_or in Hin as [Hin|[<-|[]]]; [exact Hin|discriminate].
      * intros Hin. apply in_or_app. now left.
Qed.

Lemma stored_after_upsert s c fr now rows :
  head (List.filter (has_sector s) (upsert s c fr now rows))
    = Some (mkTopic s c fr now).
Proof.
  unfold upsert.
  destruct (existsb (has_sector s) rows) eqn:Hex.
  - induction rows as [|t rows IH]; simpl in *; [discriminate|].
    destruct (has_sector s t) eqn:Ht; simpl.
    + unfold has_sector at 1. simpl. now rewrite String.eqb_refl.
    + rewrite Ht. simpl in Hex. now apply IH.
  - induction rows as [|t rows IH]; simpl in *.
    + unfold has_sector. simpl. now rewrite String.eqb_refl.
    + apply orb_false_elim in Hex as [Ht Hrest]. rewrite Ht. now apply IH.
Qed.

(** The refresh of the spec on a successful payload. *)
Lemma spec_update_success s w data c fr :
  faults w = [] ->
  api_server w s = Response 200 (Serialized data) ->
  refresh_payload data = Some (c, fr) ->
  spec_update_topic_from_api s w =
    (Ok tt,
     set_topics (upsert s c fr (clock w))
       (set_redis (insert ("api_" ++ s)%string
                     (mkEntry (json_dumps data) (clock w + 3600 * us_per_second)))
          (add_call (RefreshCall s) w))).
Proof.
  intros Hf Hsrv Hpay. world w.
  unfold spec_update_topic_from_api, try_except_Exception, fetch_api_data,
    try_except, session_get, bind; simpl.
  rewrite Hsrv. simpl.
  unfold redis_setex, bind, io, utcnow, db_upsert, bind, io; simpl.
  rewrite Hpay. reflexivity.
Qed.

(** What a failed refresh leaves alone. *)
Lemma spec_update_failure s w :
  faults w = [] ->
  refresh_fails (api_server w s) = true ->
  exists w',
    spec_update_topic_from_api s w = (Ok tt, w')
    /\ topics w' = topics w /\ faults w' = [] /\ clock w' = clock w
    /\ async_engine w' = async_engine w
    /\ api_server w' = api_server w /\ academic_server w' = academic_server w
    /\ forall key : string, String.prefix "api_" key = false ->
         redis w' !! key = redis w !! key.
Proof.
  intros Hf Hfail. world w.
  unfold spec_update_topic_from_api, try_except_Exception, fetch_api_data,
    try_except, session_get, bind; simpl.
  destruct (api s) as [e|st body]; simpl in *.
  - destruct (caught_by [ClientError; ValueError; JSONDecodeError] e);
      unfold logger_error, bind, ret; simpl;
      (eexists; split; [reflexivity|]; repeat split).
  - destruct (st =? 200) eqn:Hst; simpl.
    + destruct body as [data|raw]; simpl.
      * unfold redis_setex, bind, io, logger_error, ret; simpl.
        destruct (refresh_payload data) as [[c fr]|] eqn:Hp; [discriminate|].
        eexists. split; [reflexivity|]. repeat split. simpl.
        intros key Hk. rewrite lookup_insert_ne; [reflexivity|].
        intros <-. now rewrite api_key_prefix in Hk.
      * unfold logger_error, ret; simpl.
        eexists. split; [reflexivity|]. repeat split.
    + unfold logger_error, ret; simpl.
      eexists. split; [reflexivity|]. repeat split.
Qed.

Lemma read_and_answer_absent fa q s off w :
  faults w = [] ->
  stored_topic w s = None ->
  read_and_answer fa q s off w =
    (Ok ("I'm sorry, I don't have information on that sector.", None), w).
Proof.
  intros Hf Hst. world w.
  unfold read_and_answer, execute_select, fetchone, bind, io, ret; simpl.
  unfold stored_topic in Hst; simpl in Hst. now rewrite Hst.
Qed.

Lemma read_and_answer_present q s w t :
  faults w = [] ->
  stored_topic w s = Some t ->
  enrichment_ok w s = true ->
  exists ctx w',
    read_and_answer spec_fetch_academic_resources q s false w =
      (Ok ("Answer based on the context", Some (further_reading t)), w')
    /\ build_context spec_fetch_academic_resources t s false w = (Ok ctx, w')
    /\ (exists rest, ctx = (content t ++ rest)%string)
    /\ enrich_frame s w w'.
Proof.
  intros Hf Hst Hok.
  destruct (build_context_ok t s w Hf Hok) as (ctx & w' & Hb & Hpre & Hfr).
  exists ctx, w'. split; [|auto].
  unfold read_and_answer, execute_select, fetchone, bind, io, ret; simpl.
  rewrite Hf. simpl. rewrite Hf. simpl.
  unfold stored_topic in Hst. rewrite Hst. now rewrite Hb.
Qed.

Lemma enrichment_ok_transfer s w w' :
  clock w' = clock w ->
  redis w' !! ("academic_" ++ s)%string = redis w !! ("academic_" ++ s)%string ->
  enrichment_ok w' s = enrichment_ok w s.
Proof.
  intros Hck Hrd. unfold enrichment_ok, cache_lookup. now rewrite Hck, Hrd.
Qed.

Lemma api_key_not_academic s s' : ("api_" ++ s)%string <> ("academic_" ++ s')%string.
Proof.
  intros H. pose proof (api_key_prefix s) as Hp. rewrite H in Hp. discriminate.
Qed.

(** ** Scenario A: the first refresh of a sector *)

(** C1.  For a sector with no stored Topic, an online request whose refresh
    payload carries [content] and [further_reading] (store and cache
    answering, cached enrichment bytes well formed) writes the Topic with
    those two fields and [last_update = now], sets [api_<sector>] to the
    payload with an expiry one hour ahead, and returns the answer built
    after a context that starts with the new content, paired with the
    fetched link. *)
Theorem first_refresh_populates_store_and_cache
    (q s : string) (w : World) (data : json) (c fr : string) :
  faults w = [] ->
  stored_topic w s = None ->
  api_server w s = Response 200 (Serialized data) ->
  refresh_payload data = Some (c, fr) ->
  enrichment_ok w s = true ->
  exists w',
    get_topic_content q s false w =
      (Ok ("Answer based on the context", Some fr), w')
    /\ stored_topic w' s = Some (mkTopic s c fr (clock w))
    /\ redis w' !! ("api_" ++ s)%string =
         Some (mkEntry (json_dumps data) (clock w + 3600 * us_per_second))
    /\ cache_lookup w' ("api_" ++ s) = Some (json_dumps data)
    /\ exists w1 ctx rest,
         build_context spec_fetch_academic_resources
           (mkTopic s c fr (clock w)) s false w1 = (Ok ctx, w')
         /\ ctx = (c ++ rest)%string.
Proof.
  intros Hf Hst Hsrv Hpay Hok.
  unfold get_topic_content, get_advanced_topic_content, try_except_Exception.
  rewrite retrieval_nofault by exact Hf.
  unfold bind at 1.
  assert (Hf1 : faults (set_engine true w) = []) by (now destruct w).
  rewrite refresh_step_stale;
    [|exact Hf1|unfold stored_topic in *; destruct w; simpl in *; now rewrite Hst].
  rewrite (spec_update_success s (set_engine true w) data c fr);
    [|exact Hf1|now destruct w|exact Hpay].
  set (w2 := set_topics _ _).
  assert (Hst2 : stored_topic w2 s = Some (mkTopic s c fr (clock w))).
  { subst w2. unfold stored_topic. destruct w; simpl. apply stored_after_upsert. }
  assert (Hf2 : faults w2 = []) by (subst w2; now destruct w).
  assert (Hok2 : enrichment_ok w2 s = true).
  { etransitivity; [|exact Hok].
    apply enrichment_ok_transfer; subst w2; destruct w; [reflexivity|].
    apply lookup_insert_ne. exact (api_key_not_academic s s). }
  destruct (read_and_answer_present q s w2 _ Hf2 Hst2 Hok2)
    as (ctx & w' & Hrun & Hctx & [rest Hrest] & Hfr).
  rewrite Hrun. simpl.
  destruct Hfr as (Htp & _ & Hck & _ & _ & _ & _ & Hrd).
  assert (Hentry : redis w' !! ("api_" ++ s)%string =
            Some (mkEntry (json_dumps data) (clock w + 3600 * us_per_second))).
  { rewrite Hrd by apply api_key_not_academic.
    subst w2. destruct w; simpl. apply lookup_insert_eq. }
  exists w'. split; [reflexivity|]. split; [|split; [exact Hentry|split]].
  - unfold stored_topic in *. now rewrite Htp.
  - unfold cache_lookup. rewrite Hentry. simpl. unfold live. simpl.
    rewrite Hck. subst w2. destruct w; simpl.
    destruct (Z.ltb_spec clock0 (clock0 + 3600 * us_per_second)) as [_|Hge];
      [reflexivity|]. unfold us_per_second in Hge. lia.
  - exists w2, ctx, rest. split; [exact Hctx|exact Hrest].
Qed.

Lemma first_refresh_populates_store_and_cache_witness :
  exists w',
    get_topic_content "What are Newton's laws?" "physics" false w_empty =
      (Ok ("Answer based on the context", Some "http://x"), w')
    /\ stored_topic w' "physics" =
         Some (mkTopic "physics" "Newton's laws..." "http://x" (clock w_empty)).
Proof.
  destruct (first_refresh_populates_store_and_cache
              "What are Newton's laws?" "physics" w_empty newton
              "Newton's laws..." "http://x"
              eq_refl eq_refl eq_refl eq_refl eq_refl)
    as (w' & Hrun & Hst & _).
  exists w'. split; [exact Hrun|exact Hst].
Defined.

(** ** Scenario B: a refresh that fails *)

(** C3.  For a sector with a stored Topic, an online request whose refresh
    fails (the transport raises, be it a network error, a timeout or any
    other exception; the status is not 200; the body is not JSON or lacks
    the two fields) still returns the answer, built after a context that
    starts with the stored content, paired with the stored link; the
    request does not fail and the table is unchanged (store and cache
    answering, cached enrichment bytes well formed). *)
Theorem refresh_failure_serves_stored_topic
    (q s : string) (w : World) (t : Topic) :
  faults w = [] ->
  stored_topic w s = Some t ->
  refresh_fails (api_server w s) = true ->
  enrichment_ok w s = true ->
  exists w',
    get_topic_content q s false w =
      (Ok ("Answer based on the context", Some (further_reading t)), w')
    /\ topics w' = topics w
    /\ exists w1 ctx rest,
         build_context spec_fetch_academic_resources t s false w1 = (Ok ctx, w')
         /\ ctx = (content t ++ rest)%string.
Proof.
  intros Hf Hst Hfail Hok.
  unfold get_topic_content, get_advanced_topic_content, try_except_Exception.
  rewrite retrieval_nofault by exact Hf.
  unfold bind at 1.
  set (w1 := set_engine true w).
  assert (Hf1 : faults w1 = []) by (subst w1; now destruct w).
  assert (Hst1 : stored_topic w1 s = Some t) by (subst w1; now destruct w).
  assert (Hfail1 : refresh_fails (api_server w1 s) = true)
    by (subst w1; now destruct w).
  assert (Hok1 : enrichment_ok w1 s = true) by (subst w1; now destruct w).
  assert (Htp1 : topics w1 = topics w) by (subst w1; now destruct w).
  assert (Hstep : exists w2,
            refresh_step spec_update_topic_from_api s false w1 = (Ok tt, w2)
            /\ topics w2 = topics w1 /\ faults w2 = []
            /\ enrichment_ok w2 s = true).
  { destruct (Z_lt_le_dec (clock w1 - last_update t) (8 * us_per_day)) as [Hage|Hage].
    - exists w1. now rewrite (refresh_step_fresh _ s w1 t Hf1 Hst1 Hage).
    - rewrite refresh_step_stale; [|exact Hf1|now rewrite Hst1].
      destruct (spec_update_failure s w1 Hf1 Hfail1)
        as (w2 & Hrun & Htp & Hf2 & Hck & _ & _ & _ & Hrd).
      exists w2. repeat split; auto.
      etransitivity; [|exact Hok1].
      apply enrichment_ok_transfer; [exact Hck|].
      apply Hrd, academic_key_prefix. }
  destruct Hstep as (w2 & Hrun & Htp2 & Hf2 & Hok2). rewrite Hrun.
  assert (Hst2 : stored_topic w2 s = Some t).
  { unfold stored_topic in *. now rewrite Htp2. }
  destruct (read_and_answer_present q s w2 t Hf2 Hst2 Hok2)
    as (ctx & w' & Hans & Hctx & [rest Hrest] & Hfr).
  rewrite Hans. exists w'. split; [reflexivity|]. split.
  - destruct Hfr as (-> & _). congruence.
  - exists w2, ctx, rest. split; [exact Hctx|exact Hrest].
Qed.

Lemma refresh_failure_serves_stored_topic_witness :
  exists w',
    get_topic_content "q" "physics" false w_stale_timeout =
      (Ok ("Answer based on the context", Some "http://old"), w')
    /\ topics w' = topics w_stale_timeout.
Proof.
  destruct (refresh_failure_serves_stored_topic "q" "physics" w_stale_timeout
              (physics_row (10 * us_per_day)) eq_refl eq_refl eq_refl eq_refl)
    as (w' & Hrun & Htp & _).
  exists w'. split; [exact Hrun|exact Htp].
Defined.

(** ** Unknown sectors *)

(** C4.  When the engine, the connection and the optional refresh step
    have run and the sector still has no stored Topic, the request returns
    the fixed "no information" answer with no link, as a normal return of
    the [try] body; this holds for any refresh coroutine.  With the refresh
    of the spec it is the outcome of every offline request and of every
    online request whose refresh fails (the transport raises, a timeout
    included, the status is not 200, or the payload is malformed), when the
    sector had no Topic. *)
Theorem unknown_sector_no_information
    (q s : string) (off : bool) (w : World) :
  (forall upd fa w1,
      (get_engine ;;; engine_acquire ;;; refresh_step upd s off) w = (Ok tt, w1) ->
      faults w1 = [] ->
      stored_topic w1 s = None ->
      retrieval upd fa q s off w =
        (Ok ("I'm sorry, I don't have information on that sector.", None), w1)
      /\ get_advanced_topic_content upd fa q s off w =
        (Ok ("I'm sorry, I don't have information on that sector.", None), w1))
  /\ (faults w = [] ->
      stored_topic w s = None ->
      off = true \/ refresh_fails (api_server w s) = true ->
      exists w',
        get_topic_content q s off w =
          (Ok ("I'm sorry, I don't have information on that sector.", None), w')
        /\ topics w' = topics w).
Proof.
  split.
  - intros upd fa w1 Hpre Hf1 Hst1.
    assert (Hret : retrieval upd fa q s off w =
      (Ok ("I'm sorry, I don't have information on that sector.", None), w1)).
    { unfold retrieval. unfold bind in *.
      destruct (get_engine w) as [[[]|e] wa]; [|discriminate].
      destruct (engine_acquire wa) as [[[]|e] wb]; [|discriminate].
      destruct (refresh_step upd s off wb) as [[[]|e] wc]; [|discriminate].
      injection Hpre as ->. now apply read_and_answer_absent. }
    split; [exact Hret|].
    unfold get_advanced_topic_content, try_except_Exception. now rewrite Hret.
  - intros Hf Hst Hcase.
    unfold get_topic_content, get_advanced_topic_content, try_except_Exception.
    rewrite retrieval_nofault by exact Hf.
    unfold bind at 1.
    set (w1 := set_engine true w).
    assert (Hf1 : faults w1 = []) by (subst w1; now destruct w).
    assert (Hst1 : stored_topic w1 s = None) by (subst w1; now destruct w).
    assert (Htp1 : topics w1 = topics w) by (subst w1; now destruct w).
    assert (Hstep : exists w2,
              refresh_step spec_update_topic_from_api s off w1 = (Ok tt, w2)
              /\ topics w2 = topics w1 /\ faults w2 = []).
    { destruct off.
      - exists w1. repeat split; auto.
      - destruct Hcase as [Hoff|Hfail]; [discriminate|].
        rewrite refresh_step_stale; [|exact Hf1|now rewrite Hst1].
        assert (Hfail1 : refresh_fails (api_server w1 s) = true)
          by (subst w1; now destruct w).
        destruct (spec_update_failure s w1 Hf1 Hfail1)
          as (w2 & Hrun & Htp & Hf2 & _).
        exists w2. repeat split; auto. }
    destruct Hstep as (w2 & Hrun & Htp2 & Hf2). rewrite Hrun.
    rewrite read_and_answer_absent; [|exact Hf2|].
    + exists w2. split; [reflexivity|congruence].
    + unfold stored_topic in *. now rewrite Htp2.
Qed.

Lemma unknown_sector_no_information_witness :
  get_advanced_topic_content spec_update_topic_from_api
    spec_fetch_academic_resources "q" "chemistry" true w_stale_down =
    (Ok ("I'm sorry, I don't have information on that sector.", None),
     set_engine true w_stale_down)
  /\ exists w',
    get_topic_content "q" "chemistry" false w_stale_timeout =
      (Ok ("I'm sorry, I don't have information on that sector.", None), w')
    /\ topics w' = topics w_stale_timeout.
Proof.
  split.
  - destruct (unknown_sector_no_information "q" "chemistry" true w_stale_down)
      as [H _].
    apply (H spec_update_topic_from_api spec_fetch_academic_resources
             (set_engine true w_stale_down)); reflexivity.
  - destruct (unknown_sector_no_information "q" "chemistry" false w_stale_timeout)
      as [_ H].
    apply H; [reflexivity|reflexivity|right; reflexivity].
Defined.

(** ** The decoding of enrichment bytes leaves the world alone *)

Lemma subscript_summary_world item w : snd (subscript_summary item w) = w.
Proof.
  destruct item as [| | | | |fields]; try reflexivity.
  simpl. now destruct (dict_get "summary" fields).
Qed.

Lemma as_str_world j w : snd (as_str j w) = w.
Proof. now destruct j. Qed.

Lemma mapM_world {A B} (f : A -> M B) l w :
  (forall x w0, snd (f x w0) = w0) -> snd (mapM f l w) = w.
Proof.
  intros Hf. induction l as [|x l IH]; [reflexivity|].
  simpl. unfold bind. pose proof (Hf x w) as Hx.
  destruct (f x w) as [[y|e] w1]; simpl in *; subst; [|reflexivity].
  destruct (mapM f l w) as [[ys|e] w2]; simpl in *; subst; reflexivity.
Qed.

Lemma mapM_any_world {A B} (f : A -> M B) l :
  (forall x w0, snd (f x w0) = w0) ->
  (forall x w1 w2, fst (f x w1) = fst (f x w2)) ->
  forall w1 w2, fst (mapM f l w1) = fst (mapM f l w2).
Proof.
  intros Hw Hf. induction l as [|x l IH]; intros w1 w2; [reflexivity|].
  simpl. unfold bind.
  pose proof (Hw x w1) as H1. pose proof (Hw x w2) as H2.
  pose proof (Hf x w1 w2) as Hx.
  destruct (f x w1) as [[y1|e1] w1'], (f x w2) as [[y2|e2] w2'];
    simpl in *; subst; try discriminate; [|now injection Hx as ->].
  injection Hx as ->. specialize (IH w1 w2).
  destruct (mapM f l w1) as [[ys1|e1] w1'], (mapM f l w2) as [[ys2|e2] w2'];
    simpl in *; try discriminate; [|now injection IH as ->].
  now injection IH as ->.
Qed.

Lemma join_summaries_world data w : snd (join_summaries data w) = w.
Proof.
  unfold join_summaries, bind.
  assert (Hit : snd (iter_json data w) = w) by (now destruct data).
  destruct (iter_json data w) as [[items|e] w1]; simpl in *; subst;
    [|reflexivity].
  pose proof (mapM_world subscript_summary items w subscript_summary_world) as H1.
  destruct (mapM subscript_summary items w) as [[vals|e] w1]; simpl in *; subst;
    [|reflexivity].
  pose proof (mapM_world as_str vals w as_str_world) as H2.
  destruct (mapM as_str vals w) as [[lines|e] w1]; simpl in *; subst; reflexivity.
Qed.

Lemma join_summaries_any_world data w1 w2 :
  fst (join_summaries data w1) = fst (join_summaries data w2).
Proof.
  unfold join_summaries, bind.
  assert (Hit : forall w, iter_json data w = (fst (iter_json data w1), w))
    by (intros w; now destruct data).
  rewrite (Hit w1), (Hit w2).
  destruct (fst (iter_json data w1)) as [items|e]; [|reflexivity].
  pose proof (mapM_world subscript_summary items w1 subscript_summary_world) as H1.
  pose proof (mapM_world subscript_summary items w2 subscript_summary_world) as H2.
  assert (Hs : fst (mapM subscript_summary items w1)
             = fst (mapM subscript_summary items w2)).
  { apply mapM_any_world; [exact subscript_summary_world|].
    intros item wa wb. destruct item as [| | | | |fields]; try reflexivity.
    simpl. now destruct (dict_get "summary" fields). }
  destruct (mapM subscript_summary items w1) as [[vals|e] wa],
           (mapM subscript_summary items w2) as [[vals'|e'] wb];
    simpl in *; subst; try discriminate; [|now injection Hs as ->].
  injection Hs as <-.
  pose proof (mapM_world as_str vals w1 as_str_world) as H3.
  pose proof (mapM_world as_str vals w2 as_str_world) as H4.
  assert (Ha : fst (mapM as_str vals w1) = fst (mapM as_str vals w2)).
  { apply mapM_any_world; [exact as_str_world|].
    intros j wa wb. now destruct j. }
  destruct (mapM as_str vals w1) as [[l1|e1] wa],
           (mapM as_str vals w2) as [[l2|e2] wb];
    simpl in *; subst; try discriminate; [|now injection Ha as ->].
  now injection Ha as ->.
Qed.

Lemma decode_summaries_any_world b w1 w2 :
  fst (decode_summaries b w1) = fst (decode_summaries b w2)
  /\ snd (decode_summaries b w1) = w1.
Proof.
  unfold decode_summaries, bind. destruct b as [data|raw]; simpl; [|now split].
  split; [apply join_summaries_any_world|apply join_summaries_world].
Qed.

(** ** The enrichment cache *)

Lemma filter_enrich_refresh cs s :
  List.filter is_enrich_call (cs ++ [RefreshCall s]) = List.filter is_enrich_call cs.
Proof. rewrite List.filter_app. simpl. apply app_nil_r. Qed.

(** Whatever the refresh server does, the refresh of the spec calls no
    enrichment client and keeps its hands off the enrichment entries. *)
Lemma spec_update_enrich_frame s w :
  faults w = [] ->
  let w' := snd (spec_update_topic_from_api s w) in
  faults w' = [] /\ clock w' = clock w
  /\ List.filter is_enrich_call (calls w') = List.filter is_enrich_call (calls w)
  /\ forall key : string, String.prefix "api_" key = false ->
       redis w' !! key = redis w !! key.
Proof.
  intros Hf. world w.
  unfold spec_update_topic_from_api, try_except_Exception, fetch_api_data,
    try_except, session_get, bind; simpl.
  destruct (api s) as [e|st body]; simpl.
  - destruct (caught_by [ClientError; ValueError; JSONDecodeError] e); simpl;
      repeat split; auto using filter_enrich_refresh.
  - destruct (st =? 200); simpl.
    + destruct body as [data|raw]; simpl.
      * destruct (refresh_payload data) as [[c fr]|]; simpl;
          (repeat split; auto using filter_enrich_refresh);
          intros key Hk; (rewrite lookup_insert_ne; [reflexivity|]);
          intros <-; now rewrite api_key_prefix in Hk.
      * repeat split; auto using filter_enrich_refresh.
    + repeat split; auto using filter_enrich_refresh.
Qed.

Lemma refresh_step_enrich_frame s w :
  faults w = [] ->
  let w' := snd (refresh_step spec_update_topic_from_api s false w) in
  faults w' = [] /\ clock w' = clock w
  /\ List.filter is_enrich_call (calls w') = List.filter is_enrich_call (calls w)
  /\ forall key : string, String.prefix "api_" key = false ->
       redis w' !! key = redis w !! key.
Proof.
  intros Hf. unfold refresh_step, bind. simpl.
  rewrite (should_fetch_nofault s w Hf).
  destruct (match stored_topic w s with
            | Some t => 8 * us_per_day <=? clock w - last_update t
            | None => true
            end).
  - pose proof (spec_update_enrich_frame s w Hf) as H. simpl in H.
    destruct (spec_update_topic_from_api s w) as [[[]|e] w']; exact H.
  - simpl. repeat split; auto.
Qed.

(** With a live, well-formed enrichment entry a whole request calls no
    enrichment client. *)
Lemma cached_enrichment_no_call q s w data :
  faults w = [] ->
  cache_lookup w ("academic_" ++ s) = Some (Serialized data) ->
  enrichment_payload data = true ->
  List.filter is_enrich_call (calls (snd (get_topic_content q s false w)))
    = List.filter is_enrich_call (calls w).
Proof.
  intros Hf Hhit Hwf.
  unfold get_topic_content, get_advanced_topic_content, try_except_Exception.
  rewrite retrieval_nofault by exact Hf.
  set (w1 := set_engine true w).
  assert (Hf1 : faults w1 = []) by (subst w1; now destruct w).
  assert (Hcalls1 : calls w1 = calls w) by (subst w1; now destruct w).
  assert (Hhit1 : cache_lookup w1 ("academic_" ++ s) = Some (Serialized data))
    by (subst w1; now destruct w).
  rewrite <- Hcalls1. clearbody w1.
  unfold bind at 1.
  pose proof (refresh_step_enrich_frame s w1 Hf1) as Hstep. simpl in Hstep.
  destruct (refresh_step spec_update_topic_from_api s false w1) as [[[]|e] w2];
    simpl in Hstep; destruct Hstep as (Hf2 & Hck & Hcalls & Hrd).
  - assert (Hhit2 : cache_lookup w2 ("academic_" ++ s) = Some (Serialized data)).
    { unfold cache_lookup in *. rewrite Hck, Hrd; [exact Hhit1|reflexivity]. }
    unfold read_and_answer, execute_select, fetchone, bind, io, ret. simpl.
    rewrite Hf2. simpl. rewrite Hf2. simpl.
    destruct (head (List.filter (has_sector s) (topics w2))) as [t|]; simpl;
      [|exact Hcalls].
    rewrite (build_context_hit _ t s w2 data Hf2 Hhit2 Hwf). simpl. exact Hcalls.
  - unfold logger_error, bind, ret. simpl. exact Hcalls.
Qed.

Lemma spec_fetch_success s w data :
  faults w = [] ->
  enrichment_response (academic_server w s) = Some data ->
  spec_fetch_academic_resources s w =
    (Ok (Some (json_dumps data)),
     set_redis (insert ("academic_" ++ s)%string
                  (mkEntry (json_dumps data) (clock w + 3600 * us_per_second)))
       (add_call (EnrichCall s) w)).
Proof.
  intros Hf Hresp. unfold spec_fetch_academic_resources. rewrite Hresp.
  unfold redis_setex, bind, io, ret.
  destruct w as [tp rd ck eng api acad fl cl lg]; simpl in *. subst.
  reflexivity.
Qed.

Lemma enrichment_response_payload o data :
  enrichment_response o = Some data -> enrichment_payload data = true.
Proof.
  unfold enrichment_response. destruct o as [|st [d0|]]; try discriminate.
  destruct (st =? 200); simpl; [|discriminate].
  destruct (enrichment_payload d0) eqn:E; [|discriminate].
  now intros [= <-].
Qed.

(** Undecodable bytes found in the cache stop the building of the context. *)
Lemma build_context_hit_raises fa t s w b e :
  faults w = [] ->
  cache_lookup w ("academic_" ++ s) = Some b ->
  blob_truthy b = true ->
  fst (decode_summaries b w) = Raise e ->
  build_context fa t s false w = (Raise e, w).
Proof.
  intros Hf Hhit Htruthy Hdec.
  destruct (decode_summaries_any_world b w w) as [_ Hw].
  unfold build_context, redis_get, bind, io. simpl. rewrite Hf. simpl.
  rewrite Hhit. unfold ret at 1. simpl. rewrite Htruthy.
  unfold decode_summaries, bind in Hdec, Hw.
  destruct (json_loads b w) as [[parsed|e1] w2]; simpl in *.
  - destruct (join_summaries parsed w2) as [[joined|e2] w3]; simpl in *;
      [discriminate|].
    injection Hdec as ->. now subst w3.
  - injection Hdec as ->. now subst w2.
Qed.

(** With the store and the cache answering the refresh of the spec always
    returns; it leaves the enrichment entries, the clock and the enrichment
    server alone, calls no enrichment client, and keeps a Topic for a
    sector that had one. *)
Lemma spec_update_total s w :
  faults w = [] ->
  exists w',
    spec_update_topic_from_api s w = (Ok tt, w')
    /\ faults w' = [] /\ clock w' = clock w
    /\ academic_server w' = academic_server w
    /\ List.filter is_enrich_call (calls w') = List.filter is_enrich_call (calls w)
    /\ (forall key : string, String.prefix "api_" key = false ->
          redis w' !! key = redis w !! key)
    /\ (topics w' = topics w
        \/ exists c fr, topics w' = upsert s c fr (clock w) (topics w)).
Proof.
  intros Hf. world w.
  assert (Hkey : forall (entry : CacheEntry) (key : string),
            String.prefix "api_" key = false ->
            <[("api_" ++ s)%string := entry]> rd !! key = rd !! key).
  { intros entry key Hk. rewrite lookup_insert_ne; [reflexivity|].
    intros <-. now rewrite api_key_prefix in Hk. }
  unfold spec_update_topic_from_api, try_except_Exception, fetch_api_data,
    try_except, session_get, bind; simpl.
  destruct (api s) as [e|st body]; simpl.
  - destruct (caught_by [ClientError; ValueError; JSONDecodeError] e); simpl;
      (eexists; split; [reflexivity|]);
      repeat split; simpl; auto using filter_enrich_refresh.
  - destruct (st =? 200); simpl.
    + destruct body as [data|raw]; simpl.
      * destruct (refresh_payload data) as [[c fr]|]; simpl;
          (eexists; split; [reflexivity|]);
          repeat split; simpl; eauto using filter_enrich_refresh.
      * eexists. split; [reflexivity|].
        repeat split; simpl; auto using filter_enrich_refresh.
    + eexists. split; [reflexivity|].
      repeat split; simpl; auto using filter_enrich_refresh.
Qed.

Lemma refresh_step_total s w t :
  faults w = [] ->
  stored_topic w s = Some t ->
  exists w' t2,
    refresh_step spec_update_topic_from_api s false w = (Ok tt, w')
    /\ stored_topic w' s = Some t2
    /\ faults w' = [] /\ clock w' = clock w
    /\ academic_server w' = academic_server w
    /\ List.filter is_enrich_call (calls w') = List.filter is_enrich_call (calls w)
    /\ (forall key : string, String.prefix "api_" key = false ->
          redis w' !! key = redis w !! key).
Proof.
  intros Hf Hst.
  destruct (Z_lt_le_dec (clock w - last_update t) (8 * us_per_day)) as [Hage|Hage].
  - exists w, t. rewrite (refresh_step_fresh _ s w t Hf Hst Hage).
    repeat split; auto.
  - rewrite refresh_step_stale; [|exact Hf|now rewrite Hst].
    destruct (spec_update_total s w Hf)
      as (w' & Hrun & Hf' & Hck & Hac & Hcalls & Hrd & Htp).
    assert (Hst' : exists t2, stored_topic w' s = Some t2).
    { unfold stored_topic in *. destruct Htp as [->|(c & fr & ->)].
      - now exists t.
      - eexists. apply stored_after_upsert. }
    destruct Hst' as [t2 Hst'].
    exists w', t2. repeat split; auto.
Qed.

(** An online request for a sector with a stored Topic, store and cache
    answering: after the engine, the connection and the refresh step, the
    reply is what the building of the context on the Topic then stored
    makes it. *)
Lemma online_request_decomposes q s w t :
  faults w = [] ->
  stored_topic w s = Some t ->
  exists w_mid t2,
    stored_topic w_mid s = Some t2
    /\ faults w_mid = [] /\ clock w_mid = clock w
    /\ academic_server w_mid = academic_server w
    /\ List.filter is_enrich_call (calls w_mid)
       = List.filter is_enrich_call (calls w)
    /\ (forall key : string, String.prefix "api_" key = false ->
          redis w_mid !! key = redis w !! key)
    /\ get_topic_content q s false w =
         match build_context spec_fetch_academic_resources t2 s false w_mid with
         | (Ok _, w3) =>
             (Ok ("Answer based on the context", Some (further_reading t2)), w3)
         | (Raise e, w3) =>
             (Ok (("An error occurred: " ++ exn_str e)%string, None),
              add_log ("Error retrieving content for sector " ++ s ++ ": "
                       ++ exn_str e) w3)
         end.
Proof.
  intros Hf Hst.
  set (w1 := set_engine true w).
  assert (Hf1 : faults w1 = []) by (subst w1; now destruct w).
  assert (Hst1 : stored_topic w1 s = Some t) by (subst w1; now destruct w).
  destruct (refresh_step_total s w1 t Hf1 Hst1)
    as (w_mid & t2 & Hrun & Hst2 & Hf2 & Hck & Hac & Hcalls & Hrd).
  exists w_mid, t2.
  split; [exact Hst2|]. split; [exact Hf2|].
  split; [rewrite Hck; subst w1; now destruct w|].
  split; [rewrite Hac; subst w1; now destruct w|].
  split; [rewrite Hcalls; subst w1; now destruct w|].
  split; [intros key Hk; rewrite (Hrd key Hk); subst w1; now destruct w|].
  unfold get_topic_content, get_advanced_topic_content, try_except_Exception.
  rewrite retrieval_nofault by exact Hf. fold w1.
  unfold bind at 1. rewrite Hrun.
  unfold read_and_answer, execute_select, fetchone, bind, io, ret. simpl.
  rewrite Hf2. simpl. rewrite Hf2. simpl.
  unfold stored_topic in Hst2. rewrite Hst2.
  destruct (build_context spec_fetch_academic_resources t2 s false w_mid)
    as [[ctx|e] w3]; reflexivity.
Qed.

(** C9.  A sector with a stored Topic, no live enrichment entry and an
    enrichment server that answers with a well-formed array (store and
    cache answering).  A first request fetches the array: it makes one call
    to the enrichment client and leaves the array under [academic_<sector>]
    for 3600 seconds.  A second request within that hour makes no call to
    the enrichment client; it ends in the world in which it built its
    context, and that context is the content of the Topic then stored, a
    newline, and the summaries of the cached array, one per line in the
    order received, whatever the fetching coroutine (none is run).  It is
    the cached bytes that the second request decodes: with other bytes under
    the key, bytes that do not decode, the same request replies with the
    error of the decoding. *)
Theorem enrichment_cache_round_trip
    (q s : string) (w : World) (t : Topic) (data : json) (d : Z) :
  faults w = [] ->
  stored_topic w s = Some t ->
  cache_lookup w ("academic_" ++ s) = None ->
  enrichment_response (academic_server w s) = Some data ->
  0 <= d < 3600 * us_per_second ->
  let r1 := get_topic_content q s false w in
  let w2 := advance d (snd r1) in
  let r2 := get_topic_content q s false w2 in
  (exists href, fst r1 = Ok ("Answer based on the context", Some href))
  /\ List.filter is_enrich_call (calls (snd r1))
     = (List.filter is_enrich_call (calls w) ++ [EnrichCall s])%list
  /\ redis (snd r1) !! ("academic_" ++ s)%string
     = Some (mkEntry (json_dumps data) (clock w + 3600 * us_per_second))
  /\ cache_lookup w2 ("academic_" ++ s) = Some (json_dumps data)
  /\ List.filter is_enrich_call (calls (snd r2))
     = List.filter is_enrich_call (calls w2)
  /\ (exists w_mid t2,
        stored_topic w_mid s = Some t2
        /\ (forall fa,
              build_context fa t2 s false w_mid =
                (Ok (content t2 ++ nl ++
                     String.concat nl (summary_lines data))%string, w_mid))
        /\ r2 = (Ok ("Answer based on the context", Some (further_reading t2)),
                 w_mid))
  /\ (forall b e,
        blob_truthy b = true ->
        fst (decode_summaries b w) = Raise e ->
        fst (get_topic_content q s false
               (set_redis (insert ("academic_" ++ s)%string
                             (mkEntry b (clock w + 3600 * us_per_second)))
                  w2))
        = Ok (("An error occurred: " ++ exn_str e)%string, None)).
Proof.
  intros Hf Hst Hmiss Hresp Hd r1 w2 r2.
  pose proof (enrichment_response_payload _ _ Hresp) as Hwf.
  (* the first request *)
  destruct (online_request_decomposes q s w t Hf Hst)
    as (wm1 & t1 & Hst1 & Hf1 & Hck1 & Hac1 & Hcalls1 & Hrd1 & Hreq1).
  assert (Hmiss1 : cache_lookup wm1 ("academic_" ++ s) = None).
  { unfold cache_lookup in *. now rewrite Hck1, (Hrd1 _ (academic_key_prefix s)). }
  assert (Hb1 : build_context spec_fetch_academic_resources t1 s false wm1 =
            (Ok (content t1 ++ nl ++
                 String.concat nl (summary_lines data))%string,
             set_redis (insert ("academic_" ++ s)%string
                          (mkEntry (json_dumps data)
                             (clock w + 3600 * us_per_second)))
               (add_call (EnrichCall s) wm1))).
  { unfold build_context, redis_get, bind, io. simpl. rewrite Hf1. simpl.
    rewrite Hmiss1.
    rewrite (spec_fetch_success s wm1 data Hf1) by (now rewrite Hac1).
    simpl. unfold ret at 1. rewrite join_summaries_ok by exact Hwf.
    now rewrite Hck1. }
  assert (Hr1 : r1 = (Ok ("Answer based on the context",
                          Some (further_reading t1)),
                      set_redis (insert ("academic_" ++ s)%string
                                   (mkEntry (json_dumps data)
                                      (clock w + 3600 * us_per_second)))
                        (add_call (EnrichCall s) wm1))).
  { subst r1. rewrite Hreq1, Hb1. reflexivity. }
  set (w3 := set_redis _ (add_call (EnrichCall s) wm1)) in Hr1.
  assert (Hf3 : faults w3 = []) by (subst w3; now destruct wm1).
  assert (Hck3 : clock w3 = clock w) by (subst w3; rewrite <- Hck1; now destruct wm1).
  assert (Hst3 : stored_topic w3 s = Some t1) by (subst w3; now destruct wm1).
  assert (Hentry3 : redis w3 !! ("academic_" ++ s)%string
                    = Some (mkEntry (json_dumps data)
                              (clock w + 3600 * us_per_second))).
  { subst w3. destruct wm1; simpl. apply lookup_insert_eq. }
  assert (Hcalls3 : List.filter is_enrich_call (calls w3)
                    = (List.filter is_enrich_call (calls w) ++ [EnrichCall s])%list).
  { subst w3. rewrite <- Hcalls1. destruct wm1; simpl.
    now rewrite List.filter_app. }
  (* the world of the second request *)
  assert (Hw2 : w2 = advance d w3) by (subst w2; now rewrite Hr1).
  assert (Hf2 : faults w2 = []) by (rewrite Hw2; now destruct w3).
  assert (Hst2 : stored_topic w2 s = Some t1) by (rewrite Hw2; now destruct w3).
  assert (Hck2 : clock w2 = clock w + d)
    by (rewrite Hw2, <- Hck3; now destruct w3).
  assert (Hhit2 : cache_lookup w2 ("academic_" ++ s) = Some (json_dumps data)).
  { unfold cache_lookup. rewrite Hck2.
    replace (redis w2) with (redis w3) by (rewrite Hw2; now destruct w3).
    rewrite Hentry3. simpl. unfold live. simpl.
    destruct (Z.ltb_spec (clock w + d) (clock w + 3600 * us_per_second));
      [reflexivity|lia]. }
  destruct (online_request_decomposes q s w2 t1 Hf2 Hst2)
    as (wm2 & t2 & Hst2' & Hf2' & Hck2' & Hac2 & Hcalls2 & Hrd2 & Hreq2).
  assert (Hhit2' : cache_lookup wm2 ("academic_" ++ s) = Some (json_dumps data)).
  { unfold cache_lookup in *.
    now rewrite Hck2', (Hrd2 _ (academic_key_prefix s)). }
  assert (Hr2 : r2 = (Ok ("Answer based on the context",
                          Some (further_reading t2)), wm2)).
  { subst r2. rewrite Hreq2.
    now rewrite (build_context_hit _ t2 s wm2 data Hf2' Hhit2' Hwf). }
  split; [rewrite Hr1; now eexists|].
  split; [now rewrite Hr1|]. split; [now rewrite Hr1|].
  split; [exact Hhit2|]. split; [now rewrite Hr2|]. split.
  { exists wm2, t2. split; [exact Hst2'|]. split; [|exact Hr2].
    intros fa. now apply build_context_hit. }
  (* other bytes under the key *)
  intros b e Htruthy Hdec.
  set (wb := set_redis _ w2).
  assert (Hfb : faults wb = []) by (subst wb; now destruct w2).
  assert (Hstb : stored_topic wb s = Some t1) by (subst wb; now destruct w2).
  assert (Hckb : clock wb = clock w + d) by (subst wb; rewrite <- Hck2; now destruct w2).
  assert (Hhitb : cache_lookup wb ("academic_" ++ s) = Some b).
  { unfold cache_lookup. rewrite Hckb. subst wb. destruct w2; simpl.
    rewrite lookup_insert_eq. simpl. unfold live. simpl.
    destruct (Z.ltb_spec (clock w + d) (clock w + 3600 * us_per_second));
      [reflexivity|lia]. }
  destruct (online_request_decomposes q s wb t1 Hfb Hstb)
    as (wmb & tb & _ & Hfb' & Hckb' & _ & _ & Hrdb & Hreqb).
  assert (Hhitb' : cache_lookup wmb ("academic_" ++ s) = Some b).
  { unfold cache_lookup in *.
    now rewrite Hckb', (Hrdb _ (academic_key_prefix s)). }
  assert (Hdecb : fst (decode_summaries b wmb) = Raise e).
  { destruct (decode_summaries_any_world b wmb w) as [-> _]. exact Hdec. }
  rewrite Hreqb.
  now rewrite (build_context_hit_raises _ tb s wmb b e Hfb' Hhitb' Htruthy Hdecb).
Qed.

Lemma enrichment_cache_round_trip_witness :
  let w2 := advance (1800 * us_per_second)
              (snd (get_topic_content "q" "physics" false w_enriching)) in
  List.filter is_enrich_call (calls (snd (get_topic_content "q" "physics" false w2)))
  = List.filter is_enrich_call (calls w2)
  /\ cache_lookup w2 "academic_physics" = Some (json_dumps two_summaries).
Proof.
  destruct (enrichment_cache_round_trip "q" "physics" w_enriching
              (physics_row 0) two_summaries (1800 * us_per_second)
              eq_refl eq_refl eq_refl eq_refl
              ltac:(unfold us_per_second; lia))
    as (_ & _ & _ & H1 & H2 & _).
  split; [exact H2|exact H1].
Defined.

(** ** The ranked search *)

Lemma Qltb_lt a b : Qltb a b = true <-> (a < b)%Q.
Proof.
  unfold Qltb. rewrite negb_true_iff. split.
  - intros H. apply Qnot_le_lt. intros Hle. apply Qle_bool_iff in Hle. congruence.
  - intros H. destruct (Qle_bool b a) eqn:E; [|reflexivity].
    apply Qle_bool_iff in E. exfalso. now apply (Qlt_not_le a b).
Qed.

Lemma Qltb_ge a b : Qltb a b = false <-> (b <= a)%Q.
Proof.
  unfold Qltb. rewrite negb_false_iff. apply Qle_bool_iff.
Qed.

Lemma collect_acc rel q prefs rows acc :
  fold_left
    (fun results topic =>
       let score := rel q (content topic) (last_update topic) prefs in
       if Qltb 0 score then (results ++ [(sector topic, content topic, score)])%list
       else results) rows acc
  = (acc ++ List.filter positive (map (scored rel q prefs) rows))%list.
Proof.
  revert acc. induction rows as [|t rows IH]; intros acc; simpl.
  - now rewrite app_nil_r.
  - rewrite IH. unfold positive at 2, scored at 2, score_of. simpl.
    destruct (Qltb 0 _); [|reflexivity].
    now rewrite <- app_assoc.
Qed.

Lemma collect_spec rel q prefs rows :
  collect rel q prefs rows = List.filter positive (map (scored rel q prefs) rows).
Proof. unfold collect. now rewrite collect_acc. Qed.

Lemma insert_desc_perm x l : Permutation (insert_desc x l) (x :: l).
Proof.
  induction l as [|y l IH]; simpl; [reflexivity|].
  destruct (Qltb _ _); [|reflexivity].
  rewrite IH. apply perm_swap.
Qed.

Lemma sorted_desc_perm l : Permutation (sorted_desc l) l.
Proof.
  induction l as [|x l IH]; simpl; [reflexivity|].
  rewrite insert_desc_perm. now constructor.
Qed.

Lemma insert_desc_sorted x l :
  StronglySorted desc l -> StronglySorted desc (insert_desc x l).
Proof.
  induction 1 as [|y l Hs IH Hall]; simpl.
  - repeat constructor.
  - destruct (Qltb (score_of x) (score_of y)) eqn:E.
    + constructor; [exact IH|].
      rewrite insert_desc_perm.
      constructor; [|exact Hall].
      apply Qltb_lt in E. now apply Qlt_le_weak.
    + apply Qltb_ge in E.
      constructor; [now constructor|].
      constructor; [exact E|].
      eapply Forall_impl; [exact Hall|].
      intros z Hz. unfold desc in *. eapply Qle_trans; eauto.
Qed.

Lemma sorted_desc_sorted l : StronglySorted desc (sorted_desc l).
Proof.
  induction l as [|x l IH]; simpl; [constructor|now apply insert_desc_sorted].
Qed.

Lemma insert_desc_stable k x l :
  List.filter (ties k) (insert_desc x l) = List.filter (ties k) (x :: l).
Proof.
  induction l as [|y l IH]; [reflexivity|].
  simpl insert_desc. destruct (Qltb (score_of x) (score_of y)) eqn:E; [|reflexivity].
  simpl in *. rewrite IH.
  destruct (ties k y) eqn:Hy, (ties k x) eqn:Hx; try reflexivity.
  exfalso. unfold ties in *.
  apply Qeq_bool_iff in Hy, Hx. apply Qltb_lt in E.
  rewrite Hx, Hy in E. now apply Qlt_irrefl in E.
Qed.

Lemma sorted_desc_stable k l :
  List.filter (ties k) (sorted_desc l) = List.filter (ties k) l.
Proof.
  induction l as [|x l IH]; [reflexivity|].
  simpl sorted_desc. rewrite insert_desc_stable. simpl. now rewrite IH.
Qed.

Lemma firstn_sorted n l : StronglySorted desc l -> StronglySorted desc (firstn n l).
Proof.
  intros H. revert n. induction H as [|x l Hs IH Hall]; intros [|n]; simpl;
    try constructor; auto using Forall_take.
Qed.

Lemma execute_scan_spec w :
  same_data w (snd (execute_scan w)) /\
  forall rows, fst (execute_scan w) = Ok rows -> rows = topics w.
Proof.
  world w. unfold execute_scan, bind, io; simpl.
  destruct fl as [|[e|] fl]; simpl; (split; [repeat split|]);
    intros rows H; congruence.
Qed.

(** What a search that returns has computed. *)
Lemma advanced_search_returns rel q prefs w res w' :
  advanced_search_with rel q prefs w = (Ok res, w') ->
  res = firstn 10 (sorted_desc (collect rel q prefs (topics w))).
Proof.
  unfold advanced_search_with, bind, engine_acquire, ret.
  pose proof (get_engine_frame w) as F1.
  destruct (get_engine w) as [[[]|e] w1]; simpl in *; [|discriminate].
  pose proof (io_frame w1) as F2.
  destruct (io w1) as [[[]|e] w2]; simpl in *; [|discriminate].
  destruct (execute_scan_spec w2) as [_ R].
  destruct (execute_scan w2) as [[rows|e] w3]; simpl in *; [|discriminate].
  intros [= <- _]. rewrite (R rows eq_refl).
  destruct F1 as (H1 & _), F2 as (H2 & _). now rewrite H2, H1.
Qed.

Lemma advanced_search_nofault rel q prefs w :
  faults w = [] ->
  advanced_search_with rel q prefs w =
    (Ok (firstn 10 (sorted_desc (collect rel q prefs (topics w)))),
     set_engine true w).
Proof.
  intros Hf. world w.
  unfold advanced_search_with, get_engine, init_async_db, engine_acquire,
    execute_scan, bind, io, ret; simpl.
  destruct eng; reflexivity.
Qed.

(** C6.  Under any relevance policy, the sequence [advanced_search]
    returns has scores that never rise, holds only results whose score is
    above 0, has at most 10 results, and is the first 10 of the stable
    ranking of the qualifying rows: a permutation of them, ordered by
    score, in which the results of any one score keep the scan order of
    the table. *)
Theorem advanced_search_ordering
    (rel : string -> string -> Z -> option json -> Q)
    (q : string) (prefs : option json) (w : World)
    (res : list SearchResult) (w' : World) :
  advanced_search_with rel q prefs w = (Ok res, w') ->
  let candidates := List.filter positive (map (scored rel q prefs) (topics w)) in
  StronglySorted desc res
  /\ Forall (fun r => (0 < score_of r)%Q) res
  /\ (length res <= 10)%nat
  /\ exists ranked,
       res = firstn 10 ranked
       /\ Permutation ranked candidates
       /\ StronglySorted desc ranked
       /\ forall k, List.filter (ties k) ranked = List.filter (ties k) candidates.
Proof.
  intros Hrun candidates.
  apply advanced_search_returns in Hrun. rewrite collect_spec in Hrun.
  fold candidates in Hrun. subst res.
  split; [apply firstn_sorted, sorted_desc_sorted|].
  split; [|split; [apply firstn_le_length|]].
  - apply Forall_take. rewrite sorted_desc_perm.
    subst candidates. apply List.Forall_forall. intros r Hr.
    apply List.filter_In in Hr as [_ Hpos]. now apply Qltb_lt.
  - exists (sorted_desc candidates).
    split; [reflexivity|]. split; [apply sorted_desc_perm|].
    split; [apply sorted_desc_sorted|]. intros k. apply sorted_desc_stable.
Qed.

Lemma advanced_search_ordering_witness :
  StronglySorted desc
    [("topic1", "Gravity pulls", 8 # 10); ("topic3", "Orbits and tides", 3 # 10)]
  /\ exists w',
       advanced_search_with rel_scenario_c "gravity" None w_three =
         (Ok [("topic1", "Gravity pulls", 8 # 10);
              ("topic3", "Orbits and tides", 3 # 10)], w').
Proof.
  destruct (advanced_search_ordering rel_scenario_c "gravity" None w_three
              [("topic1", "Gravity pulls", 8 # 10);
               ("topic3", "Orbits and tides", 3 # 10)]
              (set_engine true w_three) eq_refl) as [H _].
  split; [exact H|]. exists (set_engine true w_three). reflexivity.
Defined.

(** The placeholder policy scores every row 0.5: the search returns the
    first ten rows of the table in scan order. *)
Lemma sorted_desc_constant (l : list SearchResult) :
  (forall r, In r l -> score_of r = 1 # 2) -> sorted_desc l = l.
Proof.
  induction l as [|x l IH]; intros H; [reflexivity|].
  simpl. rewrite IH by (intros r Hr; apply H; now right).
  destruct l as [|y l]; [reflexivity|]. simpl.
  rewrite (H x) by now left.
  rewrite (H y) by (right; now left). reflexivity.
Qed.

Lemma advanced_search_placeholder q prefs w :
  faults w = [] ->
  fst (advanced_search q prefs w) =
    Ok (firstn 10 (map (scored calculate_relevance_score q prefs) (topics w))).
Proof.
  intros Hf. unfold advanced_search.
  rewrite advanced_search_nofault by exact Hf. simpl.
  rewrite collect_spec.
  assert (Hall : List.filter positive
            (map (scored calculate_relevance_score q prefs) (topics w))
          = map (scored calculate_relevance_score q prefs) (topics w)).
  { induction (topics w) as [|t l IH]; [reflexivity|].
    simpl. now rewrite IH. }
  rewrite Hall, sorted_desc_constant; [reflexivity|].
  intros r Hr. apply List.in_map_iff in Hr as (t & <- & _). reflexivity.
Qed.

(** ** The enrichment entries stay well formed *)

Section Keeps.

Variable I : World -> Prop.

Lemma keeps_ret {A} (a : A) : keeps I (ret a).
Proof. now intros w H. Qed.

Lemma keeps_raise {A} (e : exn) : keeps I (@raise A e).
Proof. now intros w H. Qed.

Lemma keeps_bind {A B} (m : M A) (k : A -> M B) :
  keeps I m -> (forall a, keeps I (k a)) -> keeps I (bind m k).
Proof.
  intros Hm Hk w H. unfold bind. specialize (Hm w H).
  destruct (m w) as [[a|e] w1]; simpl in *; [now apply Hk|exact Hm].
Qed.

Lemma keeps_try_except {A} (m : M A) classes (h : exn -> M A) :
  keeps I m -> (forall e, keeps I (h e)) -> keeps I (try_except m classes h).
Proof.
  intros Hm Hh w H. unfold try_except. specialize (Hm w H).
  destruct (m w) as [[a|e] w1]; simpl in *; [exact Hm|].
  destruct (caught_by classes e); [now apply Hh|exact Hm].
Qed.

Lemma keeps_try_except_Exception {A} (m : M A) (h : exn -> M A) :
  keeps I m -> (forall e, keeps I (h e)) -> keeps I (try_except_Exception m h).
Proof.
  intros Hm Hh w H. unfold try_except_Exception. specialize (Hm w H).
  destruct (m w) as [[a|e] w1]; simpl in *; [exact Hm|now apply Hh].
Qed.

Lemma keeps_mapM {A B} (f : A -> M B) l :
  (forall x, keeps I (f x)) -> keeps I (mapM f l).
Proof.
  intros Hf. induction l as [|x l IH]; simpl; [apply keeps_ret|].
  apply keeps_bind; [apply Hf|]. intros y.
  apply keeps_bind; [exact IH|]. intros ys. apply keeps_ret.
Qed.

Lemma keeps_json_loads b : keeps I (json_loads b).
Proof. destruct b; [apply keeps_ret|apply keeps_raise]. Qed.

Lemma keeps_join_summaries data : keeps I (join_summaries data).
Proof.
  unfold join_summaries.
  apply keeps_bind.
  { destruct data; simpl; (apply keeps_ret || apply keeps_raise). }
  intros items. apply keeps_bind.
  { apply keeps_mapM. intros item.
    destruct item as [| | | | |fields]; simpl; try apply keeps_raise.
    destruct (dict_get "summary" fields); [apply keeps_ret|apply keeps_raise]. }
  intros summaries. apply keeps_bind.
  { apply keeps_mapM. intros j.
    destruct j; simpl; (apply keeps_ret || apply keeps_raise). }
  intros lines. apply keeps_ret.
Qed.

End Keeps.

(** The property looks at the cache and the clock only. *)
Lemma enrichment_cache_ok_frame w w' :
  redis w' = redis w -> clock w' = clock w ->
  enrichment_cache_ok w -> enrichment_cache_ok w'.
Proof.
  intros Hrd Hck H s. etransitivity; [|exact (H s)].
  apply enrichment_ok_transfer; [exact Hck|now rewrite Hrd].
Qed.

Lemma keeps_cache_untouched {A} (m : M A) :
  (forall w, redis (snd (m w)) = redis w /\ clock (snd (m w)) = clock w) ->
  keeps enrichment_cache_ok m.
Proof.
  intros Hm w H. destruct (Hm w) as [Hrd Hck].
  now apply (enrichment_cache_ok_frame w).
Qed.

Lemma keeps_io : keeps enrichment_cache_ok io.
Proof.
  apply keeps_cache_untouched. intros w.
  destruct (io_frame w) as (_ & Hrd & Hck & _). now split.
Qed.

Lemma keeps_get_engine : keeps enrichment_cache_ok get_engine.
Proof.
  apply keeps_cache_untouched. intros w.
  destruct (get_engine_frame w) as (_ & Hrd & Hck & _). now split.
Qed.

Lemma keeps_after_io {A} (f : World -> Res A * World) :
  (forall w, redis (snd (f w)) = redis w /\ clock (snd (f w)) = clock w) ->
  keeps enrichment_cache_ok (io ;;; f).
Proof.
  intros Hf. apply keeps_bind; [apply keeps_io|]. intros _.
  now apply keeps_cache_untouched.
Qed.

Lemma keeps_logger_error line : keeps enrichment_cache_ok (logger_error line).
Proof. apply keeps_cache_untouched. intros w. now destruct w. Qed.

Lemma keeps_redis_setex_api s seconds value :
  keeps enrichment_cache_ok (redis_setex ("api_" ++ s) seconds value).
Proof.
  apply keeps_bind; [apply keeps_io|]. intros _ w H s0. simpl.
  etransitivity; [|exact (H s0)].
  apply enrichment_ok_transfer; destruct w; [reflexivity|].
  apply lookup_insert_ne. exact (api_key_not_academic s s0).
Qed.

Lemma keeps_redis_setex_academic s data :
  enrichment_payload data = true ->
  keeps enrichment_cache_ok
    (redis_setex ("academic_" ++ s) 3600 (json_dumps data)).
Proof.
  intros Hwf. apply keeps_bind; [apply keeps_io|]. intros _ w H s0.
  unfold enrichment_ok, cache_lookup. destruct w; simpl.
  destruct (decide (("academic_" ++ s)%string = ("academic_" ++ s0)%string))
    as [<-|Hne].
  - rewrite lookup_insert_eq. simpl. unfold live. simpl.
    destruct (_ <? _); [exact Hwf|reflexivity].
  - rewrite lookup_insert_ne by exact Hne. apply (H s0).
Qed.

Lemma keeps_fetch_api_data s : keeps enrichment_cache_ok (fetch_api_data s).
Proof.
  unfold fetch_api_data. apply keeps_try_except.
  - apply keeps_bind.
    { apply keeps_cache_untouched. intros w. unfold session_get.
      destruct (api_server w s); destruct w; now split. }
    intros resp. destruct (fst resp =? 200); [|apply keeps_raise].
    apply keeps_bind; [apply keeps_json_loads|]. intros data.
    apply keeps_bind; [apply keeps_redis_setex_api|]. intros _. apply keeps_ret.
  - intros e. apply keeps_bind; [apply keeps_logger_error|]. intros _.
    apply keeps_ret.
Qed.

Lemma keeps_spec_update_topic_from_api s :
  keeps enrichment_cache_ok (spec_update_topic_from_api s).
Proof.
  unfold spec_update_topic_from_api.
  apply keeps_bind.
  { apply keeps_try_except_Exception; [apply keeps_fetch_api_data|].
    intros e. apply keeps_bind; [apply keeps_logger_error|]. intros _.
    apply keeps_ret. }
  intros data.
  destruct (refresh_payload data) as [[c fr]|]; [|apply keeps_logger_error].
  apply keeps_bind; [now apply keeps_cache_untouched|]. intros now.
  apply keeps_after_io. intros w. now destruct w.
Qed.

Lemma keeps_spec_fetch_academic_resources s :
  keeps enrichment_cache_ok (spec_fetch_academic_resources s).
Proof.
  intros w H. unfold spec_fetch_academic_resources.
  assert (H1 : enrichment_cache_ok (add_call (EnrichCall s) w)).
  { apply (enrichment_cache_ok_frame w); [now destruct w..|exact H]. }
  destruct (enrichment_response (academic_server w s)) as [data|] eqn:Hresp.
  - assert (Hwf : enrichment_payload data = true).
    { unfold enrichment_response in Hresp.
      destruct (academic_server w s) as [|st [d0|]]; try discriminate.
      destruct (st =? 200); simpl in Hresp; [|discriminate].
      destruct (enrichment_payload d0) eqn:E; [|discriminate].
      now injection Hresp as <-. }
    apply (keeps_bind enrichment_cache_ok
             (redis_setex ("academic_" ++ s) 3600 (json_dumps data))
             (fun _ => ret (Some (json_dumps data))));
      [now apply keeps_redis_setex_academic|intros _; apply keeps_ret|exact H1].
  - apply (keeps_bind enrichment_cache_ok
             (logger_error ("Error fetching academic resources for sector " ++ s))
             (fun _ => ret None));
      [apply keeps_logger_error|intros _; apply keeps_ret|exact H1].
Qed.

(** The hypothesis of C1 and C3 on the cached enrichment bytes is an
    invariant of the retrieval: it holds in a process that starts with an
    empty cache, after any number of requests and however much time
    passes, whatever the servers, the store and the cache do. *)
Lemma enrichment_cache_ok_empty w : redis w = ∅ -> enrichment_cache_ok w.
Proof.
  intros Hrd s. unfold enrichment_ok, cache_lookup. rewrite Hrd.
  now rewrite lookup_empty.
Qed.

Lemma enrichment_cache_ok_advance d w :
  0 <= d -> enrichment_cache_ok w -> enrichment_cache_ok (advance d w).
Proof.
  intros Hd H s. specialize (H s). unfold enrichment_ok, cache_lookup in *.
  destruct w; simpl in *.
  destruct (redis0 !! ("academic_" ++ s)%string) as [entry|]; [|reflexivity].
  simpl in *. unfold live in *.
  destruct (Z.ltb_spec (clock0 + d) (expires_at entry)); [|reflexivity].
  destruct (Z.ltb_spec clock0 (expires_at entry)); [exact H|lia].
Qed.

Lemma enrichment_cache_ok_kept q s off :
  keeps enrichment_cache_ok (get_topic_content q s off).
Proof.
  unfold get_topic_content, get_advanced_topic_content.
  apply keeps_try_except_Exception.
  2:{ intros e. apply keeps_bind; [apply keeps_logger_error|]. intros _.
      apply keeps_ret. }
  assert (Hsel : forall s0, keeps enrichment_cache_ok (execute_select s0)).
  { intros s0. apply keeps_after_io. intros w. now destruct w. }
  assert (Hone : forall rows, keeps enrichment_cache_ok (fetchone rows)).
  { intros rows. apply keeps_after_io. intros w. now destruct w. }
  unfold retrieval.
  apply keeps_bind; [apply keeps_get_engine|]. intros _.
  apply keeps_bind; [apply keeps_io|]. intros _.
  apply keeps_bind.
  { unfold refresh_step. destruct (negb off); [|apply keeps_ret].
    apply keeps_bind.
    - unfold should_fetch_from_api.
      apply keeps_bind; [apply Hsel|]. intros rows.
      apply keeps_bind; [apply Hone|]. intros [t|]; [|apply keeps_ret].
      apply keeps_bind; [now apply keeps_cache_untouched|]. intros now.
      apply keeps_ret.
    - intros [|]; [apply keeps_spec_update_topic_from_api|apply keeps_ret]. }
  intros _. unfold read_and_answer.
  apply keeps_bind; [apply Hsel|]. intros rows.
  apply keeps_bind; [apply Hone|]. intros [t|]; [|apply keeps_ret].
  apply keeps_bind; [|intros ctx; apply keeps_ret].
  unfold build_context. destruct (negb off); [|apply keeps_ret].
  apply keeps_bind.
  { apply keeps_after_io. intros w. now destruct w. }
  intros cached. apply keeps_bind.
  { destruct cached; [apply keeps_ret|apply keeps_spec_fetch_academic_resources]. }
  intros [b|]; [|apply keeps_ret].
  destruct (blob_truthy b); [|apply keeps_ret].
  apply keeps_bind; [apply keeps_json_loads|]. intros parsed.
  apply keeps_bind; [apply keeps_join_summaries|]. intros joined.
  apply keeps_ret.
Qed.

(** ** The [api_*] entries are never read *)

Lemma api_equiv_refl w : api_equiv w w.
Proof. repeat split. Qed.

Lemma ni_ret {A} (a : A) : ni (ret a).
Proof. intros w1 w2 H. now split. Qed.

Lemma ni_raise {A} (e : exn) : ni (@raise A e).
Proof. intros w1 w2 H. now split. Qed.

Lemma ni_bind {A B} (m : M A) (k : A -> M B) :
  ni m -> (forall a, ni (k a)) -> ni (bind m k).
Proof.
  intros Hm Hk w1 w2 H. unfold bind.
  destruct (Hm w1 w2 H) as [Hr Hw].
  destruct (m w1) as [[a1|e1] w1'], (m w2) as [[a2|e2] w2']; simpl in *;
    try discriminate.
  - injection Hr as ->. now apply Hk.
  - injection Hr as ->. split; [reflexivity|exact Hw].
Qed.

Lemma ni_try_except {A} (m : M A) classes (h : exn -> M A) :
  ni m -> (forall e, ni (h e)) -> ni (try_except m classes h).
Proof.
  intros Hm Hh w1 w2 H. unfold try_except.
  destruct (Hm w1 w2 H) as [Hr Hw].
  destruct (m w1) as [[a1|e1] w1'], (m w2) as [[a2|e2] w2']; simpl in *;
    try discriminate.
  - injection Hr as ->. split; [reflexivity|exact Hw].
  - injection Hr as ->.
    destruct (caught_by classes e2); [now apply Hh|split; [reflexivity|exact Hw]].
Qed.

Lemma ni_try_except_Exception {A} (m : M A) (h : exn -> M A) :
  ni m -> (forall e, ni (h e)) -> ni (try_except_Exception m h).
Proof.
  intros Hm Hh w1 w2 H. unfold try_except_Exception.
  destruct (Hm w1 w2 H) as [Hr Hw].
  destruct (m w1) as [[a1|e1] w1'], (m w2) as [[a2|e2] w2']; simpl in *;
    try discriminate.
  - injection Hr as ->. split; [reflexivity|exact Hw].
  - injection Hr as ->. now apply Hh.
Qed.

Ltac equiv_worlds w1 w2 H :=
  destruct w1 as [tp1 rd1 ck1 eng1 api1 acad1 fl1 cl1 lg1];
  destruct w2 as [tp2 rd2 ck2 eng2 api2 acad2 fl2 cl2 lg2];
  destruct H as (? & ? & ? & ? & ? & ? & ? & ? & H); simpl in *; subst.

Lemma ni_io : ni io.
Proof.
  intros w1 w2 H. equiv_worlds w1 w2 H. unfold io; simpl.
  destruct fl2 as [|[e|] fl]; simpl; repeat split; auto.
Qed.

Lemma ni_logger_error line : ni (logger_error line).
Proof.
  intros w1 w2 H. equiv_worlds w1 w2 H. unfold logger_error; simpl.
  repeat split; auto.
Qed.

Lemma ni_utcnow : ni utcnow.
Proof.
  intros w1 w2 H. equiv_worlds w1 w2 H. unfold utcnow; simpl.
  repeat split; auto.
Qed.

Lemma ni_get_engine : ni get_engine.
Proof.
  intros w1 w2 H. equiv_worlds w1 w2 H.
  unfold get_engine, init_async_db, bind, io; simpl.
  destruct eng2; simpl; [repeat split; auto|].
  destruct fl2 as [|[e|] fl]; simpl; repeat split; auto.
Qed.

Lemma ni_read {A} (f : World -> A) :
  (forall w1 w2, api_equiv w1 w2 -> f w1 = f w2) ->
  ni (io ;;; (fun w => (Ok (f w), w))).
Proof.
  intros Hf. apply ni_bind; [apply ni_io|]. intros _ w1 w2 H. simpl.
  split; [f_equal; now apply Hf|exact H].
Qed.

Lemma ni_execute_select s : ni (execute_select s).
Proof.
  apply (ni_read (fun w => List.filter (has_sector s) (topics w))).
  intros w1 w2 (-> & _). reflexivity.
Qed.

Lemma ni_execute_scan : ni execute_scan.
Proof. apply (ni_read topics). now intros w1 w2 (-> & _). Qed.

Lemma ni_fetchone rows : ni (fetchone rows).
Proof. apply ni_bind; [apply ni_io|]. intros _. apply ni_ret. Qed.

Lemma ni_redis_get key :
  String.prefix "api_" key = false -> ni (redis_get key).
Proof.
  intros Hk. apply (ni_read (fun w => cache_lookup w key)).
  intros w1 w2 (_ & Hck & _ & _ & _ & _ & _ & _ & Hrd).
  unfold cache_lookup. now rewrite Hck, (Hrd key Hk).
Qed.

Lemma ni_redis_setex key seconds value : ni (redis_setex key seconds value).
Proof.
  apply ni_bind; [apply ni_io|]. intros _ w1 w2 H.
  equiv_worlds w1 w2 H. simpl. repeat split; auto. simpl.
  intros k Hk. destruct (decide (key = k)) as [->|Hne].
  - now rewrite !lookup_insert_eq.
  - rewrite !lookup_insert_ne by exact Hne. now apply H.
Qed.

Lemma ni_db_upsert s c fr now : ni (db_upsert s c fr now).
Proof.
  apply ni_bind; [apply ni_io|]. intros _ w1 w2 H.
  equiv_worlds w1 w2 H. simpl. repeat split; auto.
Qed.

Lemma ni_session_get_api c s : ni (session_get api_server c s).
Proof.
  intros w1 w2 H. equiv_worlds w1 w2 H. unfold session_get; simpl.
  destruct (api2 s); simpl; repeat split; auto.
Qed.

Lemma ni_json_loads b : ni (json_loads b).
Proof. destruct b; [apply ni_ret|apply ni_raise]. Qed.

Lemma ni_mapM {A B} (f : A -> M B) l : (forall x, ni (f x)) -> ni (mapM f l).
Proof.
  intros Hf. induction l as [|x l IH]; simpl; [apply ni_ret|].
  apply ni_bind; [apply Hf|]. intros y.
  apply ni_bind; [exact IH|]. intros ys. apply ni_ret.
Qed.

Lemma ni_join_summaries data : ni (join_summaries data).
Proof.
  unfold join_summaries.
  apply ni_bind.
  { destruct data; simpl; (apply ni_ret || apply ni_raise). }
  intros items. apply ni_bind.
  { apply ni_mapM. intros item.
    destruct item as [| | | | |fields]; simpl; try apply ni_raise.
    destruct (dict_get "summary" fields); [apply ni_ret|apply ni_raise]. }
  intros summaries. apply ni_bind.
  { apply ni_mapM. intros j. destruct j; simpl; (apply ni_ret || apply ni_raise). }
  intros lines. apply ni_ret.
Qed.

Lemma ni_should_fetch_from_api s : ni (should_fetch_from_api s).
Proof.
  unfold should_fetch_from_api.
  apply ni_bind; [apply ni_execute_select|]. intros rows.
  apply ni_bind; [apply ni_fetchone|]. intros [t|]; [|apply ni_ret].
  apply ni_bind; [apply ni_utcnow|]. intros now. apply ni_ret.
Qed.

Lemma ni_fetch_api_data s : ni (fetch_api_data s).
Proof.
  unfold fetch_api_data. apply ni_try_except.
  - apply ni_bind; [apply ni_session_get_api|]. intros resp.
    destruct (fst resp =? 200); [|apply ni_raise].
    apply ni_bind; [apply ni_json_loads|]. intros data.
    apply ni_bind; [apply ni_redis_setex|]. intros _. apply ni_ret.
  - intros e. apply ni_bind; [apply ni_logger_error|]. intros _. apply ni_ret.
Qed.

Lemma ni_spec_update_topic_from_api s : ni (spec_update_topic_from_api s).
Proof.
  unfold spec_update_topic_from_api.
  apply ni_bind.
  { apply ni_try_except_Exception; [apply ni_fetch_api_data|].
    intros e. apply ni_bind; [apply ni_logger_error|]. intros _. apply ni_ret. }
  intros data.
  destruct (refresh_payload data) as [[c fr]|]; [|apply ni_logger_error].
  apply ni_bind; [apply ni_utcnow|]. intros now. apply ni_db_upsert.
Qed.

Lemma ni_add_call {A} c (m : M A) : ni m -> ni (fun w => m (add_call c w)).
Proof.
  intros Hm w1 w2 H. apply Hm.
  equiv_worlds w1 w2 H. repeat split; auto.
Qed.

Lemma ni_spec_fetch_academic_resources s : ni (spec_fetch_academic_resources s).
Proof.
  intros w1 w2 H. unfold spec_fetch_academic_resources.
  assert (Hsrv : academic_server w1 = academic_server w2) by apply H.
  rewrite Hsrv.
  destruct (enrichment_response (academic_server w2 s)) as [data|].
  - apply (ni_add_call (EnrichCall s)
             (redis_setex ("academic_" ++ s) 3600 (json_dumps data) ;;;
              ret (Some (json_dumps data)))); [|exact H].
    apply ni_bind; [apply ni_redis_setex|]. intros _. apply ni_ret.
  - apply (ni_add_call (EnrichCall s)
             (logger_error ("Error fetching academic resources for sector " ++ s) ;;;
              ret None)); [|exact H].
    apply ni_bind; [apply ni_logger_error|]. intros _. apply ni_ret.
Qed.

(** The orchestrator, over any two coroutines that cannot tell the worlds
    apart either. *)
Lemma ni_get_advanced_topic_content upd fa q s off :
  (forall s0, ni (upd s0)) -> (forall s0, ni (fa s0)) ->
  ni (get_advanced_topic_content upd fa q s off).
Proof.
  intros Hupd Hfa. unfold get_advanced_topic_content.
  apply ni_try_except_Exception.
  2:{ intros e. apply ni_bind; [apply ni_logger_error|]. intros _. apply ni_ret. }
  unfold retrieval.
  apply ni_bind; [apply ni_get_engine|]. intros _.
  apply ni_bind; [apply ni_io|]. intros _.
  apply ni_bind.
  { unfold refresh_step. destruct (negb off); [|apply ni_ret].
    apply ni_bind; [apply ni_should_fetch_from_api|].
    intros [|]; [apply Hupd|apply ni_ret]. }
  intros _. unfold read_and_answer.
  apply ni_bind; [apply ni_execute_select|]. intros rows.
  apply ni_bind; [apply ni_fetchone|]. intros [t|]; [|apply ni_ret].
  apply ni_bind; [|intros ctx; apply ni_ret].
  unfold build_context. destruct (negb off); [|apply ni_ret].
  apply ni_bind; [apply ni_redis_get, academic_key_prefix|]. intros cached.
  apply ni_bind.
  { destruct cached; [apply ni_ret|apply Hfa]. }
  intros [b|]; [|apply ni_ret].
  destruct (blob_truthy b); [|apply ni_ret].
  apply ni_bind; [apply ni_json_loads|]. intros parsed.
  apply ni_bind; [apply ni_join_summaries|]. intros joined. apply ni_ret.
Qed.

Lemma ni_advanced_search_with rel q prefs : ni (advanced_search_with rel q prefs).
Proof.
  unfold advanced_search_with.
  apply ni_bind; [apply ni_get_engine|]. intros _.
  apply ni_bind; [apply ni_io|]. intros _.
  apply ni_bind; [apply ni_execute_scan|]. intros rows. apply ni_ret.
Qed.

Lemma api_equiv_insert_api w s entry :
  api_equiv w (set_redis (insert ("api_" ++ s)%string entry) w).
Proof.
  destruct w; repeat split; simpl. intros key Hk.
  rewrite lookup_insert_ne; [reflexivity|].
  intros <-. now rewrite api_key_prefix in Hk.
Qed.

(** C10.  Two runs of a retrieval or of a search that start in worlds
    differing at most in their [api_*] cache entries (contents or absence)
    return the same output, under the same faults of the store and the
    cache, and end in worlds that again differ at most in [api_*] entries:
    [api_<sector>] is written and never read. *)
Theorem api_cache_never_read
    (q s : string) (off : bool) (prefs : option json) (w1 w2 : World) :
  api_equiv w1 w2 ->
  fst (get_topic_content q s off w1) = fst (get_topic_content q s off w2)
  /\ fst (advanced_search q prefs w1) = fst (advanced_search q prefs w2)
  /\ api_equiv (snd (get_topic_content q s off w1))
               (snd (get_topic_content q s off w2))
  /\ api_equiv (snd (advanced_search q prefs w1))
               (snd (advanced_search q prefs w2))
  /\ (forall rel,
        fst (advanced_search_with rel q prefs w1) =
        fst (advanced_search_with rel q prefs w2)).
Proof.
  intros H.
  destruct (ni_get_advanced_topic_content spec_update_topic_from_api
              spec_fetch_academic_resources q s off
              ni_spec_update_topic_from_api ni_spec_fetch_academic_resources
              w1 w2 H) as [Hr Hw].
  destruct (ni_advanced_search_with calculate_relevance_score q prefs w1 w2 H)
    as [Hr' Hw'].
  repeat split; try assumption; try apply Hw; try apply Hw'.
  intros rel. apply (ni_advanced_search_with rel q prefs w1 w2 H).
Qed.

Lemma api_cache_never_read_witness :
  fst (get_topic_content "q" "physics" false w_stale_down)
  = fst (get_topic_content "q" "physics" false w_stale_down_tampered).
Proof.
  destruct (api_cache_never_read "q" "physics" false None
              w_stale_down w_stale_down_tampered
              (api_equiv_insert_api w_stale_down "physics"
                 (mkEntry (Garbage "tampered") (2000 * us_per_day))))
    as [H _].
  exact H.
Defined.

(** * Further properties of [main.py] *)

(** ** The engine (lines 77-89) *)

(** X1.  The engine is created at most once: [get_engine] succeeds exactly when
    it leaves an engine behind, it makes at most one call into the store,
    a second [get_engine] after it changes nothing more, and a failed
    creation leaves the global at [None], so that the next request tries
    again. *)
Theorem get_engine_creates_once (w : World) :
  (get_engine ;;; get_engine) w = get_engine w
  /\ (fst (get_engine w) = Ok tt <-> async_engine (snd (get_engine w)) = true)
  /\ (async_engine w = true -> get_engine w = (Ok tt, w))
  /\ (faults (snd (get_engine w)) = faults w
      \/ exists f, faults w = f :: faults (snd (get_engine w)))
  /\ startup_event w = get_engine w.
Proof.
  destruct w as [tp rd ck eng api acad fl cl lg].
  unfold startup_event, bind, get_engine, init_async_db, bind, io; simpl.
  destruct eng; simpl.
  - repeat split; auto.
  - destruct fl as [|[e|] fl]; simpl; repeat split; auto; try discriminate;
      right; eexists; reflexivity.
Qed.

(** ** [fetch_api_data] (lines 91-104) *)





(** X4.  An exception of the transport that is none of [ClientError],
    [ValueError], [JSONDecodeError] leaves [fetch_api_data] as it came,
    without a line in the log. *)
Theorem fetch_api_data_lets_other_exceptions_through
    (s : string) (w : World) (e : exn) :
  api_server w s = NetFail e ->
  caught_by [ClientError; ValueError; JSONDecodeError] e = false ->
  fetch_api_data s w = (Raise e, add_call (RefreshCall s) w).
Proof.
  intros Hsrv Hcls. destruct w as [tp rd ck eng api acad fl cl lg]; simpl in *.
  unfold fetch_api_data, try_except, session_get, bind; simpl.
  rewrite Hsrv. simpl. now rewrite Hcls.
Qed.

Lemma fetch_api_data_lets_other_exceptions_through_witness :
  fetch_api_data "physics" w_timeout =
    (Raise (Exn OtherError "timeout"), add_call (RefreshCall "physics") w_timeout).
Proof.
  exact (fetch_api_data_lets_other_exceptions_through "physics" w_timeout
           (Exn OtherError "timeout") eq_refl eq_refl).
Defined.

(** X5.  When the server has answered and the write to the cache raises, the
    payload is lost: nothing is cached, and the caller gets the exception
    of the cache, or [None] if that exception is of a handled class. *)
Theorem fetch_api_data_cache_fault
    (s : string) (w : World) (data : json) (e : exn) (fs : list (option exn)) :
  api_server w s = Response 200 (Serialized data) ->
  faults w = Some e :: fs ->
  let w1 := set_faults fs (add_call (RefreshCall s) w) in
  fetch_api_data s w =
    (if caught_by [ClientError; ValueError; JSONDecodeError] e
     then (Ok JNull,
           add_log ("Error fetching API data for sector " ++ s ++ ": " ++ exn_str e) w1)
     else (Raise e, w1))
  /\ redis (snd (fetch_api_data s w)) = redis w.
Proof.
  intros Hsrv Hf w1. subst w1.
  destruct w as [tp rd ck eng api acad fl cl lg]; simpl in *; subst.
  unfold fetch_api_data, try_except, session_get, bind; simpl.
  rewrite Hsrv. simpl.
  destruct (caught_by [ClientError; ValueError; JSONDecodeError] e);
    split; reflexivity.
Qed.

Lemma fetch_api_data_cache_fault_witness :
  fst (fetch_api_data "physics" w_cache_down)
    = Raise (Exn RedisError "Connection refused")
  /\ redis (snd (fetch_api_data "physics" w_cache_down)) = redis w_cache_down.
Proof.
  destruct (fetch_api_data_cache_fault "physics" w_cache_down newton
              (Exn RedisError "Connection refused") [] eq_refl eq_refl)
    as [H1 H2].
  split; [now rewrite H1|exact H2].
Defined.

(** X6.  The footprint of [fetch_api_data], in every world and for every
    outcome: one call to the refresh client, no change to the table, the
    clock or the engine, and no cache key touched but [api_<sector>]. *)
Theorem fetch_api_data_footprint (s : string) (w : World) :
  let w' := snd (fetch_api_data s w) in
  calls w' = (calls w ++ [RefreshCall s])%list
  /\ topics w' = topics w /\ clock w' = clock w
  /\ async_engine w' = async_engine w
  /\ forall key : string, key <> ("api_" ++ s)%string ->
       redis w' !! key = redis w !! key.
Proof.
  destruct w as [tp rd ck eng api acad fl cl lg]; simpl.
  unfold fetch_api_data, try_except, session_get, bind; simpl.
  destruct (api s) as [e|st body]; simpl.
  - destruct (caught_by [ClientError; ValueError; JSONDecodeError] e);
      simpl; repeat split.
  - destruct (st =? 200); simpl; [|repeat split].
    destruct body as [data|raw]; simpl; [|repeat split].
    unfold redis_setex, bind, io; simpl.
    destruct fl as [|[e|] fl]; simpl.
    + repeat split. intros key Hne. simpl. now rewrite lookup_insert_ne.
    + destruct (caught_by [ClientError; ValueError; JSONDecodeError] e);
        simpl; repeat split.
    + repeat split. intros key Hne. simpl. now rewrite lookup_insert_ne.
Qed.

(** ** The merge of the summaries (line 127) *)

(** An array with an item that has no string [summary] stops the
    comprehension or the [join]. *)
Lemma unjoinable_items items w :
  forallb has_summary items = false ->
  (exists e, mapM subscript_summary items w = (Raise e, w) /\ join_error e)
  \/ (exists vals e,
        mapM subscript_summary items w = (Ok vals, w)
        /\ mapM as_str vals w = (Raise e, w) /\ join_error e).
Proof.
  induction items as [|item items IH]; [discriminate|].
  simpl. intros H. unfold bind.
  pose proof (mapM_world subscript_summary items w subscript_summary_world) as Hw.
  destruct (has_summary item) eqn:Hitem; simpl in H.
  - destruct item as [| | | | |fields]; try discriminate Hitem. simpl in *.
    destruct (dict_get "summary" fields) as [[| | |text| |]|];
      try discriminate Hitem.
    unfold ret.
    destruct (IH H) as [(e & He & Hc)|(vals & e & Hv & He & Hc)].
    + left. exists e. now rewrite He.
    + right. exists (JStr text :: vals), e. rewrite Hv. split; [reflexivity|].
      simpl. unfold bind, ret. now rewrite He.
  - clear IH H.
    assert (Hcases :
      (exists e, subscript_summary item w = (Raise e, w) /\ join_error e)
      \/ (exists v e, subscript_summary item w = (Ok v, w)
                      /\ as_str v w = (Raise e, w) /\ join_error e)).
    { unfold join_error.
      destruct item as [| | | | |fields]; simpl in *;
        try (left; eexists; split; [reflexivity|simpl; tauto]).
      destruct (dict_get "summary" fields) as [[| | |text| |]|];
        try discriminate Hitem;
        try (right; eexists _, _; split; [reflexivity|];
             split; [reflexivity|simpl; tauto]).
      left; eexists; split; [reflexivity|simpl; tauto]. }
    destruct Hcases as [(e & He & Hc)|(v & e & Hv & He & Hc)].
    + left. exists e. now rewrite He.
    + rewrite Hv.
      destruct (mapM subscript_summary items w) as [[vals|e'] w1] eqn:Hrest;
        simpl in Hw; subst w1.
      * right. exists (v :: vals), e. split; [reflexivity|].
        simpl. unfold bind. now rewrite He.
      * left. exists e'. split; [reflexivity|].
        clear -Hrest. revert e' Hrest.
        induction items as [|item items IH]; intros e' Hrest;
          [discriminate|].
        simpl in Hrest. unfold bind in Hrest.
        destruct (subscript_summary item w) as [[v|e0] w0] eqn:Hi.
        -- destruct (mapM subscript_summary items w0) as [[vs|e1] w2] eqn:Hr.
           ++ discriminate.
           ++ injection Hrest as <- _.
              pose proof (subscript_summary_world item w) as Hw0.
              rewrite Hi in Hw0. simpl in Hw0. subst w0.
              pose proof (mapM_world subscript_summary items w
                            subscript_summary_world) as Hw2.
              rewrite Hr in Hw2. simpl in Hw2. subst w2.
              now apply IH.
        -- injection Hrest as <- _. unfold join_error.
           destruct item as [| | | | |fields]; simpl in Hi;
             try (injection Hi as <- _; simpl; tauto).
           destruct (dict_get "summary" fields);
             [discriminate|injection Hi as <- _; simpl; tauto].
Qed.

(** X7.  The merge of the summaries succeeds exactly on an array of objects
    that each carry a string [summary] (and on the empty object and the
    empty string, which give no line); it then gives the summaries in the
    order received, one per line.  On any other value it raises a
    [TypeError] or a [KeyError].  In both cases it leaves the world as it
    was. *)
Theorem join_summaries_joinable (data : json) (w : World) :
  snd (join_summaries data w) = w
  /\ if joinable data
     then join_summaries data w =
            (Ok (String.concat nl (summary_lines data)), w)
     else exists e, join_summaries data w = (Raise e, w) /\ join_error e.
Proof.
  split; [apply join_summaries_world|].
  destruct data as [|b|n|text|items|fields]; simpl.
  - eexists. split; [reflexivity|right + left; reflexivity].
  - eexists. split; [reflexivity|right + left; reflexivity].
  - eexists. split; [reflexivity|right + left; reflexivity].
  - destruct text as [|c text]; [reflexivity|].
    eexists. split; [reflexivity|left; reflexivity].
  - destruct (forallb has_summary items) eqn:Hall.
    + now apply join_summaries_ok.
    + unfold join_summaries, bind, iter_json, ret at 1.
      destruct (unjoinable_items items w Hall)
        as [(e & He & Hc)|(vals & e & Hv & He & Hc)].
      * exists e. now rewrite He.
      * exists e. now rewrite Hv, He.
  - destruct fields as [|[k v] fields]; [reflexivity|].
    eexists. split; [reflexivity|left; reflexivity].
Qed.

(** ** More on [get_advanced_topic_content] (lines 108-133) *)

Lemma reply_shape_of_request
    (upd : string -> M unit) (fa : string -> M (option blob))
    (q s : string) (off : bool) (w : World) :
  exists r w',
    get_advanced_topic_content upd fa q s off w = (Ok r, w') /\ reply_shape r.
Proof.
  unfold get_advanced_topic_content, try_except_Exception, logger_error, bind.
  destruct (retrieval upd fa q s off w) as [[r|e] w1] eqn:Hret.
  2:{ eexists _, _. split; [reflexivity|]. right; right. now exists e. }
  exists r, w1. split; [reflexivity|].
  unfold retrieval, read_and_answer, bind in Hret.
  destruct (get_engine w) as [[[]|?] wa]; [|discriminate].
  destruct (engine_acquire wa) as [[[]|?] wb]; [|discriminate].
  destruct (refresh_step upd s off wb) as [[[]|?] wc]; [|discriminate].
  destruct (execute_select s wc) as [[rows|?] wd]; [|discriminate].
  destruct (fetchone rows wd) as [[[t|]|?] we]; [| |discriminate].
  - destruct (build_context fa t s off we) as [[ctx|?] wf]; [|discriminate].
    injection Hret as <- _. right; left. now eexists.
  - injection Hret as <- _. now left.
Qed.

(** X8.  Every reply carries one of three texts: the "no information"
    text, the answer, or the error text; the "no information" text and the
    error text always come with no link, so a link never comes with
    another text than the answer. *)
Theorem reply_has_three_shapes
    (upd : string -> M unit) (fa : string -> M (option blob))
    (q s : string) (off : bool) (w : World) :
  exists r w',
    get_advanced_topic_content upd fa q s off w = (Ok r, w') /\ reply_shape r.
Proof. exact (reply_shape_of_request upd fa q s off w). Qed.

(** X9.  Cached enrichment bytes that do not decode make the whole request
    fail: for a fresh stored Topic, when the bytes under
    [academic_<sector>] are not JSON or not joinable, the reply is the
    error text of that exception with no link, although the Topic is
    there; neither coroutine is run. *)
Theorem malformed_enrichment_fails_request
    (upd : string -> M unit) (fa : string -> M (option blob))
    (q s : string) (w : World) (t : Topic) (b : blob) (e : exn) :
  faults w = [] ->
  stored_topic w s = Some t ->
  clock w - last_update t < 8 * us_per_day ->
  cache_lookup w ("academic_" ++ s) = Some b ->
  blob_truthy b = true ->
  fst (decode_summaries b w) = Raise e ->
  get_advanced_topic_content upd fa q s false w =
    (Ok (("An error occurred: " ++ exn_str e)%string, None),
     add_log ("Error retrieving content for sector " ++ s ++ ": " ++ exn_str e)
       (set_engine true w)).
Proof.
  intros Hf Hst Hage Hhit Htruthy Hdec.
  unfold get_advanced_topic_content, try_except_Exception.
  rewrite retrieval_nofault by exact Hf.
  set (w1 := set_engine true w).
  assert (Hf1 : faults w1 = []) by (subst w1; now destruct w).
  assert (Hst1 : stored_topic w1 s = Some t) by (subst w1; now destruct w).
  assert (Hage1 : clock w1 - last_update t < 8 * us_per_day)
    by (subst w1; now destruct w).
  assert (Hhit1 : cache_lookup w1 ("academic_" ++ s) = Some b)
    by (subst w1; now destruct w).
  destruct (decode_summaries_any_world b w1 w) as [Hd1 Hd2].
  rewrite Hdec in Hd1. clearbody w1.
  unfold bind at 1. rewrite (refresh_step_fresh upd s w1 t Hf1 Hst1 Hage1).
  unfold read_and_answer, execute_select, fetchone, bind, io, ret. simpl.
  rewrite Hf1. simpl. rewrite Hf1. simpl.
  unfold stored_topic in Hst1. rewrite Hst1.
  unfold build_context, redis_get, bind, io. simpl. rewrite Hf1. simpl.
  rewrite Hhit1. unfold ret at 1. simpl. rewrite Htruthy.
  unfold decode_summaries, bind in Hd1, Hd2.
  destruct (json_loads b w1) as [[parsed|e1] w2]; simpl in *.
  - destruct (join_summaries parsed w2) as [[joined|e2] w3]; simpl in *;
      [discriminate|].
    injection Hd1 as ->. subst w3. reflexivity.
  - injection Hd1 as ->. subst w2. reflexivity.
Qed.

Lemma malformed_enrichment_fails_request_witness :
  get_topic_content "q" "physics" false w_bad_cache =
    (Ok ("An error occurred: Expecting value: line 1 column 1 (char 0)", None),
     add_log "Error retrieving content for sector physics: Expecting value: line 1 column 1 (char 0)"
       (set_engine true w_bad_cache)).
Proof.
  exact (malformed_enrichment_fails_request spec_update_topic_from_api
           spec_fetch_academic_resources "q" "physics" w_bad_cache
           (physics_row 0) (Garbage "<html>")
           (Exn JSONDecodeError "Expecting value: line 1 column 1 (char 0)")
           eq_refl eq_refl eq_refl eq_refl eq_refl eq_refl).
Defined.

(** X10.  An empty byte string under [academic_<sector>] counts as a cache hit
    and as no data: the enrichment is not fetched and the answer is built
    on the stored content alone. *)
Theorem empty_cache_entry_blocks_enrichment
    (upd : string -> M unit) (fa : string -> M (option blob))
    (q s : string) (w : World) (t : Topic) :
  faults w = [] ->
  stored_topic w s = Some t ->
  clock w - last_update t < 8 * us_per_day ->
  cache_lookup w ("academic_" ++ s) = Some (Garbage "") ->
  get_advanced_topic_content upd fa q s false w =
    (Ok ("Answer based on the context", Some (further_reading t)),
     set_engine true w)
  /\ build_context fa t s false w = (Ok (content t), w).
Proof.
  intros Hf Hst Hage Hhit. split.
  - unfold get_advanced_topic_content, try_except_Exception.
    rewrite retrieval_nofault by exact Hf.
    set (w1 := set_engine true w).
    assert (Hf1 : faults w1 = []) by (subst w1; now destruct w).
    assert (Hst1 : stored_topic w1 s = Some t) by (subst w1; now destruct w).
    assert (Hage1 : clock w1 - last_update t < 8 * us_per_day)
      by (subst w1; now destruct w).
    assert (Hhit1 : cache_lookup w1 ("academic_" ++ s) = Some (Garbage ""))
      by (subst w1; now destruct w).
    clearbody w1.
    unfold bind at 1. rewrite (refresh_step_fresh upd s w1 t Hf1 Hst1 Hage1).
    unfold read_and_answer, execute_select, fetchone, bind, io, ret. simpl.
    rewrite Hf1. simpl. rewrite Hf1. simpl.
    unfold stored_topic in Hst1. rewrite Hst1.
    unfold build_context, redis_get, bind, io. simpl. rewrite Hf1. simpl.
    now rewrite Hhit1.
  - unfold build_context, redis_get, bind, io. simpl. rewrite Hf. simpl.
    now rewrite Hhit.
Qed.

Lemma empty_cache_entry_blocks_enrichment_witness :
  get_topic_content "q" "physics" false w_empty_cache_entry =
    (Ok ("Answer based on the context", Some "http://old"),
     set_engine true w_empty_cache_entry).
Proof.
  destruct (empty_cache_entry_blocks_enrichment spec_update_topic_from_api
              spec_fetch_academic_resources "q" "physics" w_empty_cache_entry
              (physics_row 0) eq_refl eq_refl eq_refl eq_refl) as [H _].
  exact H.
Defined.

(** X11.  When the engine cannot be created the request replies with the error
    text of that exception; it has read nothing and called no client, and
    the engine is still unset, so the next request tries again. *)
Theorem engine_failure_is_reported
    (upd : string -> M unit) (fa : string -> M (option blob))
    (q s : string) (off : bool) (w : World) (e : exn) (fs : list (option exn)) :
  async_engine w = false ->
  faults w = Some e :: fs ->
  get_advanced_topic_content upd fa q s off w =
    (Ok (("An error occurred: " ++ exn_str e)%string, None),
     add_log ("Error retrieving content for sector " ++ s ++ ": " ++ exn_str e)
       (set_faults fs w))
  /\ async_engine (snd (get_advanced_topic_content upd fa q s off w)) = false
  /\ calls (snd (get_advanced_topic_content upd fa q s off w)) = calls w.
Proof.
  intros Heng Hf. destruct w as [tp rd ck eng api acad fl cl lg]; simpl in *.
  subst.
  unfold get_advanced_topic_content, try_except_Exception, retrieval,
    get_engine, init_async_db, bind, io; simpl.
  repeat split.
Qed.

Lemma engine_failure_is_reported_witness :
  get_topic_content "q" "physics" false w_db_down =
    (Ok ("An error occurred: could not connect to server", None),
     add_log "Error retrieving content for sector physics: could not connect to server"
       (set_faults [] w_db_down)).
Proof.
  destruct (engine_failure_is_reported spec_update_topic_from_api
              spec_fetch_academic_resources "q" "physics" false w_db_down
              (Exn SQLAlchemyError "could not connect to server") []
              eq_refl eq_refl) as [H _].
  exact H.
Defined.

(** ** More on [advanced_search] (lines 140-152) *)

Lemma sorted_app_order (l1 l2 : list SearchResult) :
  StronglySorted desc (l1 ++ l2) ->
  forall a b, In a l1 -> In b l2 -> desc a b.
Proof.
  induction l1 as [|x l1 IH]; simpl; intros Hs a b Ha Hb; [contradiction|].
  apply StronglySorted_inv in Hs as [Hs Hall].
  destruct Ha as [<-|Ha]; [|now apply IH].
  rewrite List.Forall_forall in Hall. apply Hall, List.in_or_app. now right.
Qed.

(** X12.  The cut at ten keeps the best: a qualifying row that is not returned
    scores no more than any row that is; every returned result comes from
    a qualifying row; and when at most ten rows qualify all of them are
    returned. *)
Theorem advanced_search_keeps_best
    (rel : string -> string -> Z -> option json -> Q)
    (q : string) (prefs : option json) (w : World)
    (res : list SearchResult) (w' : World) :
  advanced_search_with rel q prefs w = (Ok res, w') ->
  let candidates := List.filter positive (map (scored rel q prefs) (topics w)) in
  (forall r r', In r candidates -> ~ In r res -> In r' res ->
                (score_of r <= score_of r')%Q)
  /\ (forall r, In r res -> In r candidates)
  /\ ((length candidates <= 10)%nat -> Permutation res candidates).
Proof.
  intros Hrun candidates.
  apply advanced_search_returns in Hrun. rewrite collect_spec in Hrun.
  fold candidates in Hrun.
  pose proof (sorted_desc_perm candidates) as Hperm.
  pose proof (sorted_desc_sorted candidates) as Hsorted.
  set (ranked := sorted_desc candidates) in *.
  split; [|split].
  - intros r r' Hr Hnot Hr'.
    rewrite <- (firstn_skipn 10 ranked) in Hsorted.
    apply (sorted_app_order _ _ Hsorted r' r); [now rewrite <- Hrun|].
    assert (Hin : In r ranked)
      by (apply (Permutation_in r (Permutation_sym Hperm)); exact Hr).
    rewrite <- (firstn_skipn 10 ranked) in Hin.
    apply List.in_app_or in Hin as [Hin|Hin]; [|exact Hin].
    exfalso. apply Hnot. now rewrite Hrun.
  - intros r Hr. apply (Permutation_in r Hperm).
    rewrite Hrun in Hr.
    rewrite <- (firstn_skipn 10 ranked). apply List.in_or_app. now left.
  - intros Hlen. rewrite Hrun, firstn_all2; [exact Hperm|].
    now rewrite (Permutation_length Hperm).
Qed.

Lemma advanced_search_keeps_best_witness :
  Permutation
    [("topic1", "Gravity pulls", 8 # 10); ("topic3", "Orbits and tides", 3 # 10)]
    (List.filter positive
       (map (scored rel_scenario_c "gravity" None) (topics w_three))).
Proof.
  destruct (advanced_search_keeps_best rel_scenario_c "gravity" None w_three
              [("topic1", "Gravity pulls", 8 # 10);
               ("topic3", "Orbits and tides", 3 # 10)]
              (set_engine true w_three) eq_refl) as (_ & _ & H).
  apply H. vm_compute. lia.
Defined.

(** X13.  With the placeholder score of the source the query and the
    preferences have no effect: the search returns the first ten rows of
    the table, in scan order, each with score 0.5, and nothing for an
    empty table. *)
Theorem advanced_search_first_ten_rows
    (q : string) (prefs : option json) (w : World) :
  faults w = [] ->
  advanced_search q prefs w =
    (Ok (firstn 10 (map (fun t => (sector t, content t, 1 # 2)) (topics w))),
     set_engine true w)
  /\ (forall q' prefs' w0,
        advanced_search q' prefs' w0 = advanced_search q prefs w0)
  /\ (topics w = [] -> fst (advanced_search q prefs w) = Ok []).
Proof.
  intros Hf.
  assert (Hrun : advanced_search q prefs w =
    (Ok (firstn 10 (map (fun t => (sector t, content t, 1 # 2)) (topics w))),
     set_engine true w)).
  { unfold advanced_search. rewrite advanced_search_nofault by exact Hf.
    rewrite collect_spec.
    assert (Hall : List.filter positive
              (map (scored calculate_relevance_score q prefs) (topics w))
            = map (fun t => (sector t, content t, 1 # 2)) (topics w)).
    { induction (topics w) as [|t l IH]; [reflexivity|].
      simpl. now rewrite IH. }
    rewrite Hall, sorted_desc_constant; [reflexivity|].
    intros r Hr. apply List.in_map_iff in Hr as (t & <- & _). reflexivity. }
  split; [exact Hrun|]. split; [reflexivity|].
  intros Hempty. rewrite Hrun, Hempty. reflexivity.
Qed.

Lemma advanced_search_first_ten_rows_witness :
  fst (advanced_search "gravity" None w_three) =
    Ok [("topic1", "Gravity pulls", 1 # 2);
        ("topic2", "Cell biology", 1 # 2);
        ("topic3", "Orbits and tides", 1 # 2)].
Proof.
  destruct (advanced_search_first_ten_rows "gravity" None w_three eq_refl)
    as [H _].
  now rewrite H.
Defined.

(** X14.  The search only reads: whatever the store does and whether it returns
    or raises, the table, the cache, the clock, the list of client calls
    and the log are as before. *)
Theorem advanced_search_reads_only
    (rel : string -> string -> Z -> option json -> Q)
    (q : string) (prefs : option json) (w : World) :
  same_data w (snd (advanced_search_with rel q prefs w)).
Proof.
  unfold advanced_search_with, engine_acquire, bind, ret.
  pose proof (get_engine_frame w) as F1.
  destruct (get_engine w) as [[[]|e] w1]; simpl in *; [|exact F1].
  pose proof (io_frame w1) as F2.
  destruct (io w1) as [[[]|e] w2]; simpl in *;
    [|exact (same_data_trans _ _ _ F1 F2)].
  destruct (execute_scan_spec w2) as [F3 _].
  destruct (execute_scan w2) as [[rows|e] w3]; simpl in *;
    eauto using same_data_trans.
Qed.

(** ** The routes (lines 154-167) *)

Lemma length_substring_0 (n : nat) (text : string) :
  String.length (String.substring 0 n text) = Nat.min n (String.length text).
Proof.
  revert text. induction n as [|n IH]; intros [|c text]; try reflexivity.
  change (S (String.length (String.substring 0 n text))
          = Nat.min (S n) (S (String.length text))).
  rewrite IH. reflexivity.
Qed.

Lemma length_append (a b : string) :
  String.length (a ++ b)%string = (String.length a + String.length b)%nat.
Proof.
  induction a as [|c a IH]; [reflexivity|].
  change (S (String.length (a ++ b)%string)
          = S (String.length a + String.length b)).
  now rewrite IH.
Qed.

Lemma prefix_append (a b : string) : String.prefix a (a ++ b)%string = true.
Proof.
  induction a as [|c a IH]; [now destruct b|].
  change (String.prefix (String c a) (String c (a ++ b)%string) = true).
  simpl. destruct (ascii_dec c c) as [_|Hne]; [exact IH|now destruct Hne].
Qed.

Lemma prefix_substring_0 (n : nat) (text : string) :
  String.prefix (String.substring 0 n text) text = true.
Proof.
  revert text. induction n as [|n IH]; intros [|c text]; try reflexivity.
  change (String.prefix (String c (String.substring 0 n text)) (String c text)
          = true).
  simpl. destruct (ascii_dec c c) as [_|Hne]; [apply IH|now destruct Hne].
Qed.

(** X15.  A text of at most 200 characters is its own snippet; a longer one is
    cut to its first 200 characters followed by three dots, 203 characters
    in all.  No snippet is longer than 203 characters and every snippet
    starts as the text does. *)
Theorem snippet_bounds (text : string) :
  (String.length (snippet text) <= 203)%nat
  /\ String.prefix (String.substring 0 200 text) (snippet text) = true
  /\ if Nat.leb (String.length text) 200
     then snippet text = text
     else snippet text = (String.substring 0 200 text ++ "...")%string
          /\ String.length (snippet text) = 203%nat.
Proof.
  unfold snippet.
  destruct (Nat.ltb_spec 200 (String.length text)) as [Hlong|Hshort].
  - assert (Hlen : String.length (String.substring 0 200 text ++ "...")%string
                   = 203%nat).
    { rewrite length_append, length_substring_0.
      change (String.length "...") with 3%nat. lia. }
    split; [lia|]. split; [apply prefix_append|].
    destruct (Nat.leb_spec (String.length text) 200) as [Hle|_]; [lia|].
    split; [reflexivity|exact Hlen].
  - split; [lia|]. split; [apply prefix_substring_0|].
    destruct (Nat.leb_spec (String.length text) 200) as [_|Hgt]; [reflexivity|lia].
Qed.

Lemma render_sorted (res : list SearchResult) :
  StronglySorted desc res -> StronglySorted hits_desc (map render_hit res).
Proof.
  induction 1 as [|r res Hs IH Hall]; simpl; constructor; [exact IH|].
  apply List.Forall_forall. intros h Hh.
  apply List.in_map_iff in Hh as (r' & <- & Hr').
  rewrite List.Forall_forall in Hall. exact (Hall r' Hr').
Qed.

Lemma snippet_length (text : string) : (String.length (snippet text) <= 203)%nat.
Proof.
  unfold snippet.
  destruct (Nat.ltb_spec 200 (String.length text)) as [Hlong|Hshort]; [|lia].
  rewrite length_append, length_substring_0.
  change (String.length "...") with 3%nat. lia.
Qed.

(** X16.  The reply of [/advanced_search] is the result of [advanced_search] for
    the query and preferences of the body (an absent query is the empty
    string), each content replaced by its snippet: at most ten hits, in
    the order and with the sectors and scores of the search, no score
    rising along the list, each score above 0 and each content of at most
    203 characters. *)
Theorem advanced_search_route_reply
    (rel : string -> string -> Z -> option json -> Q)
    (data : SearchBody) (w : World) (hits : list SearchHit) (w' : World) :
  advanced_search_route_with rel data w = (Ok hits, w') ->
  (exists res,
      advanced_search_with rel (get_text (body_query data))
        (get_preferences (body_preferences data)) w = (Ok res, w')
      /\ hits = map render_hit res
      /\ map hit_sector hits = map (fun r => fst (fst r)) res
      /\ map hit_score hits = map score_of res)
  /\ (length hits <= 10)%nat
  /\ StronglySorted hits_desc hits
  /\ Forall (fun h => (String.length (hit_content h) <= 203)%nat
                      /\ (0 < hit_score h)%Q) hits.
Proof.
  unfold advanced_search_route_with, bind, ret. intros Hrun.
  destruct (advanced_search_with rel (get_text (body_query data))
              (get_preferences (body_preferences data)) w)
    as [[res|e] w1] eqn:Hsearch; [|discriminate].
  injection Hrun as <- <-.
  pose proof (advanced_search_returns _ _ _ _ _ _ Hsearch) as Hres.
  rewrite collect_spec in Hres.
  split.
  { exists res. split; [reflexivity|]. split; [reflexivity|].
    rewrite !List.map_map. split; reflexivity. }
  split; [|split].
  - rewrite List.length_map, Hres. apply firstn_le_length.
  - apply render_sorted. rewrite Hres. apply firstn_sorted, sorted_desc_sorted.
  - apply List.Forall_forall. intros h Hh.
    apply List.in_map_iff in Hh as (r & <- & Hr). simpl.
    split; [apply snippet_length|].
    rewrite Hres in Hr.
    assert (Hin : In r (sorted_desc
                          (List.filter positive
                             (map (scored rel (get_text (body_query data))
                                     (get_preferences (body_preferences data)))
                                (topics w))))).
    { rewrite <- (firstn_skipn 10 (sorted_desc _)).
      apply List.in_or_app. now left. }
    clear Hr. rename Hin into Hr.
    apply (Permutation_in r (sorted_desc_perm _)) in Hr.
    apply List.filter_In in Hr as [_ Hpos]. now apply Qltb_lt.
Qed.

Lemma advanced_search_route_reply_witness :
  exists res,
    advanced_search_with rel_scenario_c "gravity" None w_three
      = (Ok res, set_engine true w_three)
    /\ [mkHit "topic1" "Gravity pulls" (8 # 10);
        mkHit "topic3" "Orbits and tides" (3 # 10)] = map render_hit res.
Proof.
  destruct (advanced_search_route_reply rel_scenario_c
              (mkSearchBody (Some "gravity") (Some JNull)) w_three
              [mkHit "topic1" "Gravity pulls" (8 # 10);
               mkHit "topic3" "Orbits and tides" (3 # 10)]
              (set_engine true w_three) eq_refl) as [(res & H1 & H2 & _) _].
  exists res. split; [exact H1|exact H2].
Defined.

(** X17.  The search route has no handler either: an exception of the first
    call into the store leaves the route as it came. *)
Theorem advanced_search_route_propagates
    (rel : string -> string -> Z -> option json -> Q)
    (data : SearchBody) (w : World) (e : exn) (fs : list (option exn)) :
  faults w = Some e :: fs ->
  fst (advanced_search_route_with rel data w) = Raise e.
Proof.
  intros Hf. unfold advanced_search_route_with, bind.
  pose proof (advanced_search_propagates rel (get_text (body_query data))
                (get_preferences (body_preferences data)) w e fs Hf) as H.
  destruct (advanced_search_with rel _ _ w) as [[res|e'] w1]; simpl in *;
    [discriminate|now injection H as ->].
Qed.

Lemma advanced_search_route_propagates_witness :
  fst (advanced_search_route (mkSearchBody (Some "gravity") None) w_db_down)
    = Raise (Exn SQLAlchemyError "could not connect to server").
Proof.
  exact (advanced_search_route_propagates calculate_relevance_score
           (mkSearchBody (Some "gravity") None) w_db_down
           (Exn SQLAlchemyError "could not connect to server") [] eq_refl).
Defined.

(** X18.  [/get_topic_content] always replies, with an object of the two keys
    [answer] and [link]: the link is [null] or a string, and a string only
    beside the answer text. *)
Theorem get_topic_content_route_always_replies
    (upd : string -> M unit) (fa : string -> M (option blob))
    (data : TopicBody) (w : World) :
  exists text l w',
    get_topic_content_route upd fa data w =
      (Ok (JObj [("answer", JStr text); ("link", l)]), w')
    /\ (l = JNull
        \/ exists href, l = JStr href /\ text = "Answer based on the context").
Proof.
  unfold get_topic_content_route, bind, ret.
  destruct (reply_shape_of_request upd fa (get_text (body_question data))
              (get_text (body_sector data))
              (get_flag (body_offline_mode data)) w)
    as (r & w' & -> & [->|[[[l|] ->]|[e ->]]]); unfold topic_reply; simpl.
  - eexists _, _, _. split; [reflexivity|now left].
  - eexists _, _, _. split; [reflexivity|right; now exists l].
  - eexists _, _, _. split; [reflexivity|now left].
  - eexists _, _, _. split; [reflexivity|now left].
Qed.

(** X19.  Any truthy [offline_mode] in the body switches the request offline, a
    non-empty string such as "false" included: the reply is then the same
    under any two implementations of the coroutines that reach the
    network (none is run), and the table, the cache and the list of
    client calls are left as they were. *)
Theorem truthy_offline_mode_goes_offline
    (upd : string -> M unit) (fa : string -> M (option blob))
    (data : TopicBody) (flag : json) (w : World) :
  body_offline_mode data = Some flag ->
  py_truthy flag = true ->
  (forall upd' fa',
      get_topic_content_route upd' fa' data w =
      get_topic_content_route upd fa data w)
  /\ let w' := snd (get_topic_content_route upd fa data w) in
     topics w' = topics w /\ redis w' = redis w /\ calls w' = calls w.
Proof.
  intros Hflag Htruthy.
  assert (Hoff : get_flag (body_offline_mode data) = true)
    by (now rewrite Hflag).
  unfold get_topic_content_route. rewrite Hoff. split; [reflexivity|].
  unfold bind, ret.
  pose proof (offline_frame upd fa (get_text (body_question data))
                (get_text (body_sector data)) w) as H. simpl in H.
  destruct (get_advanced_topic_content upd fa _ _ true w) as [[r|e] w1];
    exact H.
Qed.

Lemma truthy_offline_mode_goes_offline_witness :
  calls (snd (get_topic_content_route spec_update_topic_from_api
                spec_fetch_academic_resources
                (mkTopicBody None (Some "physics") (Some (JStr "false")))
                w_stale_down))
  = calls w_stale_down.
Proof.
  destruct (truthy_offline_mode_goes_offline spec_update_topic_from_api
              spec_fetch_academic_resources
              (mkTopicBody None (Some "physics") (Some (JStr "false")))
              (JStr "false") w_stale_down eq_refl eq_refl) as [_ (_ & _ & H)].
  exact H.
Defined.

(** ** The refresh and the enrichment as the orchestrator runs them *)

(** X20.  An exception of the refresh coroutine ends the request: for a sector
    that is stale or unknown, whatever [update_topic_from_api] raises
    becomes the error text of the reply, with no link, even when a Topic
    is stored. *)
Theorem refresh_exception_fails_request
    (upd : string -> M unit) (fa : string -> M (option blob))
    (q s : string) (w : World) (e : exn) (w1 : World) :
  faults w = [] ->
  match stored_topic w s with
  | None => True
  | Some t => 8 * us_per_day <= clock w - last_update t
  end ->
  upd s (set_engine true w) = (Raise e, w1) ->
  get_advanced_topic_content upd fa q s false w =
    (Ok (("An error occurred: " ++ exn_str e)%string, None),
     add_log ("Error retrieving content for sector " ++ s ++ ": " ++ exn_str e)
       w1).
Proof.
  intros Hf Hstale Hupd.
  unfold get_advanced_topic_content, try_except_Exception.
  rewrite retrieval_nofault by exact Hf.
  unfold bind at 1.
  rewrite refresh_step_stale; [|now destruct w|now destruct w].
  now rewrite Hupd.
Qed.

Lemma refresh_exception_fails_request_witness :
  get_advanced_topic_content failing_refresh spec_fetch_academic_resources
    "q" "physics" false w_stale_down =
    (Ok ("An error occurred: refresh failed", None),
     add_log "Error retrieving content for sector physics: refresh failed"
       (set_engine true w_stale_down)).
Proof.
  exact (refresh_exception_fails_request failing_refresh
           spec_fetch_academic_resources "q" "physics" w_stale_down
           (Exn OtherError "refresh failed") (set_engine true w_stale_down)
           eq_refl ltac:(vm_compute; discriminate) eq_refl).
Defined.

(** X21.  On a cache miss (no entry, or one past its expiry) the context is
    built from what [fetch_academic_resources] hands back: nothing leaves
    the stored content alone, a well-formed array adds its summaries, one
    per line, and an exception of the coroutine is not handled here. *)
Theorem enrichment_miss_runs_fetch
    (fa : string -> M (option blob)) (t : Topic) (s : string) (w : World) :
  faults w = [] ->
  cache_lookup w ("academic_" ++ s) = None ->
  (forall w1, fa s w = (Ok None, w1) ->
     build_context fa t s false w = (Ok (content t), w1))
  /\ (forall data w1,
        fa s w = (Ok (Some (Serialized data)), w1) ->
        enrichment_payload data = true ->
        build_context fa t s false w =
          (Ok (content t ++ nl ++ String.concat nl (summary_lines data))%string,
           w1))
  /\ (forall e w1, fa s w = (Raise e, w1) ->
        build_context fa t s false w = (Raise e, w1)).
Proof.
  intros Hf Hmiss.
  assert (Hrun : build_context fa t s false w =
    (academic_data <- fa s ;;
     match academic_data with
     | Some b =>
         if blob_truthy b then
           parsed <- json_loads b ;;
           joined <- join_summaries parsed ;;
           ret (content t ++ nl ++ joined)%string
         else ret (content t)
     | None => ret (content t)
     end) w).
  { unfold build_context, redis_get, bind, io. simpl. rewrite Hf. simpl.
    now rewrite Hmiss. }
  rewrite Hrun. unfold bind. repeat split.
  - intros w1 ->. reflexivity.
  - intros data w1 -> Hwf. simpl. unfold ret at 1.
    now rewrite (join_summaries_ok data w1 Hwf).
  - intros e w1 ->. reflexivity.
Qed.

Lemma enrichment_miss_runs_fetch_witness :
  build_context spec_fetch_academic_resources (physics_row 0) "physics" false
    w_enriching =
    (Ok ("Stored physics notes" ++ nl ++
         String.concat nl ["First law: inertia"; "Second law: F = ma"])%string,
     snd (spec_fetch_academic_resources "physics" w_enriching)).
Proof.
  destruct (enrichment_miss_runs_fetch spec_fetch_academic_resources
              (physics_row 0) "physics" w_enriching eq_refl eq_refl)
    as (_ & H & _).
  exact (H two_summaries _ eq_refl eq_refl).
Defined.
